(** * A batch command server and its client: model and verified properties

    The development follows [server.py] (class [Server]) and [client.py]
    (class [Client]).  The first half gives the model: Python text and bytes,
    the text codecs, the [json] module as the two programs use it, then the
    methods of both classes over an explicit world of external events.  The
    second half states and proves the properties. *)

From Stdlib Require Import String.
From Stdlib Require Import List NArith ZArith Bool Lia.
From Stdlib Require Import Strings.Byte.
From Stdlib Require DecimalFacts DecimalPos DecimalN.
Import ListNotations.

Set Implicit Arguments.

(** ** Text and bytes *)

Module Text.
Local Open Scope N_scope.

(** A Python [str] is a sequence of code points, a [bytes] object a
    sequence of octets. *)
Abbreviation char := N.
Abbreviation str := (list char).
Abbreviation bytes := (list byte).

Definition lit (s : String.string) : str :=
  map Byte.to_N (String.list_byte_of_string s).
Definition blit (s : String.string) : bytes := String.list_byte_of_string s.
Arguments lit s%_string.
Arguments blit s%_string.

Fixpoint str_eqb (a b : str) : bool :=
  match a, b with
  | [], [] => true
  | x :: a', y :: b' => (x =? y) && str_eqb a' b'
  | _, _ => false
  end.

Fixpoint startswith (p s : str) : bool :=
  match p, s with
  | [], _ => true
  | x :: p', y :: s' => (x =? y) && startswith p' s'
  | _ :: _, [] => false
  end.

(** [sub in s] *)
Fixpoint contains (sub s : str) : bool :=
  startswith sub s ||
  match s with
  | [] => false
  | _ :: s' => contains sub s'
  end.

Definition is_high_surrogate (c : char) : bool := (0xD800 <=? c) && (c <=? 0xDBFF).
Definition is_low_surrogate (c : char) : bool := (0xDC00 <=? c) && (c <=? 0xDFFF).
Definition is_surrogate (c : char) : bool := (0xD800 <=? c) && (c <=? 0xDFFF).


Definition join_surrogates (hi lo : char) : char :=
  0x10000 + (hi - 0xD800) * 1024 + (lo - 0xDC00).

(** [str.isspace] on one code point, as [str.strip] uses it. *)
Definition isspace (c : char) : bool :=
  ((9 <=? c) && (c <=? 13)) || ((28 <=? c) && (c <=? 32)) ||
  (c =? 0x85) || (c =? 0xA0) || (c =? 0x1680) ||
  ((0x2000 <=? c) && (c <=? 0x200A)) ||
  (c =? 0x2028) || (c =? 0x2029) || (c =? 0x202F) || (c =? 0x205F) || (c =? 0x3000).

Fixpoint lstrip (s : str) : str :=
  match s with
  | c :: r => if isspace c then lstrip r else s
  | [] => []
  end.

(** [s.strip()] *)
Definition strip (s : str) : str := rev (lstrip (rev (lstrip s))).

Definition byte_of_N (n : N) : byte :=
  match Byte.of_N n with
  | Some b => b
  | None => x00
  end.
End Text.

(** ** Exceptions

    The classes the two programs name in an [except] clause, and those the
    operations they call raise.  All of them derive from [Exception]. *)

Inductive exn : Type :=
| JSONDecodeError
| KeyError
| TypeError
| UnicodeDecodeError
| UnicodeEncodeError
| TimeoutExpired
| FileNotFoundError
| SocketTimeout
| OSError
| EOFError
| AttributeError
| IndexError
| RuntimeError.

Inductive result (A : Type) : Type :=
| Ok (a : A)
| Raise (e : exn).
Arguments Ok {A} a.
Arguments Raise {A} e.

(** ** Text codecs: [bytes.decode] and [str.encode] *)

Module Codec.
Import Text.
Local Open Scope N_scope.

Definition is_cont (b : N) : bool := (0x80 <=? b) && (b <=? 0xBF).

(** UTF-8 decoding of a sequence of octets.  With [surrogatepass] the
    three-octet forms of the surrogates are let through, as the error
    handler of that name does; every other malformed sequence is an error
    under both handlers. *)
Fixpoint utf8_decode (surrogatepass : bool) (b : list N) {struct b} : option str :=
  match b with
  | [] => Some []
  | b0 :: r =>
    if b0 <? 0x80 then option_map (cons b0) (utf8_decode surrogatepass r)
    else if b0 <? 0xC2 then None
    else if b0 <? 0xE0 then
      match r with
      | b1 :: r1 =>
        if is_cont b1
        then option_map (cons ((b0 - 0xC0) * 64 + (b1 - 0x80)))
                        (utf8_decode surrogatepass r1)
        else None
      | [] => None
      end
    else if b0 <? 0xF0 then
      match r with
      | b1 :: b2 :: r2 =>
        let c := (b0 - 0xE0) * 4096 + (b1 - 0x80) * 64 + (b2 - 0x80) in
        if is_cont b1 && is_cont b2 && (0x800 <=? c)
           && (surrogatepass || negb (is_surrogate c))
        then option_map (cons c) (utf8_decode surrogatepass r2)
        else None
      | _ => None
      end
    else if b0 <? 0xF5 then
      match r with
      | b1 :: b2 :: b3 :: r3 =>
        let c := (b0 - 0xF0) * 262144 + (b1 - 0x80) * 4096
                 + (b2 - 0x80) * 64 + (b3 - 0x80) in
        if is_cont b1 && is_cont b2 && is_cont b3
           && (0x10000 <=? c) && (c <? 0x110000)
        then option_map (cons c) (utf8_decode surrogatepass r3)
        else None
      | _ => None
      end
    else None
  end.

Definition utf8_encode_char (c : char) : option (list N) :=
  if c <? 0x80 then Some [c]
  else if c <? 0x800 then Some [0xC0 + c / 64; 0x80 + c mod 64]
  else if is_surrogate c then None
  else if c <? 0x10000 then
    Some [0xE0 + c / 4096; 0x80 + (c / 64) mod 64; 0x80 + c mod 64]
  else if c <? 0x110000 then
    Some [0xF0 + c / 262144; 0x80 + (c / 4096) mod 64;
          0x80 + (c / 64) mod 64; 0x80 + c mod 64]
  else None.

Fixpoint utf8_encode (s : str) : option (list N) :=
  match s with
  | [] => Some []
  | c :: r =>
    match utf8_encode_char c, utf8_encode r with
    | Some x, Some y => Some (x ++ y)
    | _, _ => None
    end
  end.

(** [data.decode('utf-8')] *)
Definition decode (data : bytes) : result str :=
  match utf8_decode false (map Byte.to_N data) with
  | Some s => Ok s
  | None => Raise UnicodeDecodeError
  end.

(** [text.encode()] *)
Definition encode (text : str) : result bytes :=
  match utf8_encode text with
  | Some l => Ok (map byte_of_N l)
  | None => Raise UnicodeEncodeError
  end.

(** UTF-16 under [surrogatepass]: a high surrogate followed by a low one
    is one code point, every other unit stands for itself. *)
Fixpoint utf16_units (big : bool) (b : list N) {struct b} : option (list N) :=
  match b with
  | [] => Some []
  | x :: r =>
    match r with
    | y :: r' =>
      option_map (cons (if big then x * 256 + y else y * 256 + x))
                 (utf16_units big r')
    | [] => None
    end
  end.

Fixpoint utf16_join (u : list N) {struct u} : str :=
  match u with
  | [] => []
  | h :: r =>
    match r with
    | l :: r' =>
      if is_high_surrogate h && is_low_surrogate l
      then join_surrogates h l :: utf16_join r'
      else h :: utf16_join r
    | [] => [h]
    end
  end.

Definition utf16_decode (big : bool) (b : list N) : option str :=
  option_map utf16_join (utf16_units big b).

(** UTF-32 under [surrogatepass]. *)
Fixpoint utf32_decode (big : bool) (b : list N) {struct b} : option str :=
  match b with
  | [] => Some []
  | x0 :: r =>
    match r with
    | x1 :: x2 :: x3 :: r' =>
      let c := if big then ((x0 * 256 + x1) * 256 + x2) * 256 + x3
               else ((x3 * 256 + x2) * 256 + x1) * 256 + x0 in
      if c <? 0x110000 then option_map (cons c) (utf32_decode big r') else None
    | _ => None
    end
  end.
End Codec.

(** ** The [json] module

    Values are those [json.loads] builds and [json.dumps] prints.  A [dict]
    keeps its keys in insertion order.  A [float] is kept as the literal it
    was read from: its binary value and the text [repr] prints for it are
    not part of the model. *)

Module Json.
Import Text.
Local Open Scope N_scope.

Unset Elimination Schemes.
Inductive value : Type :=
| VNone
| VBool (b : bool)
| VInt (z : Z)
| VFloat (literal : str)
| VStr (s : str)
| VList (l : list value)
| VDict (d : list (str * value)).
Set Elimination Schemes.

Definition dict := list (str * value).

(** [d[k]], [None] standing for the [KeyError]. *)
Fixpoint dict_get (k : str) (d : dict) : option value :=
  match d with
  | [] => None
  | (k', v) :: d' => if str_eqb k k' then Some v else dict_get k d'
  end.

(** [d[k] = v]: an existing key keeps its place, a new one goes last. *)
Fixpoint dict_set (k : str) (v : value) (d : dict) : dict :=
  match d with
  | [] => [(k, v)]
  | (k', v') :: d' =>
    if str_eqb k k' then (k', v) :: d' else (k', v') :: dict_set k v d'
  end.

Definition dict_has (k : str) (d : dict) : bool :=
  match dict_get k d with Some _ => true | None => false end.


(** *** Printing: [json.dumps] with its default arguments *)

Definition digit_char (d : N) : char := 48 + d.

Fixpoint uint_chars (d : Decimal.uint) : str :=
  match d with
  | Decimal.Nil => []
  | Decimal.D0 d' => digit_char 0 :: uint_chars d'
  | Decimal.D1 d' => digit_char 1 :: uint_chars d'
  | Decimal.D2 d' => digit_char 2 :: uint_chars d'
  | Decimal.D3 d' => digit_char 3 :: uint_chars d'
  | Decimal.D4 d' => digit_char 4 :: uint_chars d'
  | Decimal.D5 d' => digit_char 5 :: uint_chars d'
  | Decimal.D6 d' => digit_char 6 :: uint_chars d'
  | Decimal.D7 d' => digit_char 7 :: uint_chars d'
  | Decimal.D8 d' => digit_char 8 :: uint_chars d'
  | Decimal.D9 d' => digit_char 9 :: uint_chars d'
  end.

(** [int.__repr__] *)
Definition int_repr (z : Z) : str :=
  (if (z <? 0)%Z then [45] else []) ++ uint_chars (N.to_uint (Z.abs_N z)).

Definition hex_digit (d : N) : char := if d <? 10 then 48 + d else 87 + d.

(** ['{0:04x}'.format(n)] for [n < 0x10000] *)
Definition hex4_chars (n : N) : str :=
  [hex_digit (n / 4096); hex_digit ((n / 256) mod 16);
   hex_digit ((n / 16) mod 16); hex_digit (n mod 16)].

(** One character under [ensure_ascii]: the short escapes, printable
    ASCII as it is, [\uXXXX] for the rest, a surrogate pair above the
    basic plane. *)
Definition escape_char (c : char) : str :=
  if c =? 34 then [92; 34]
  else if c =? 92 then [92; 92]
  else if c =? 10 then [92; 110]
  else if c =? 13 then [92; 114]
  else if c =? 9 then [92; 116]
  else if c =? 8 then [92; 98]
  else if c =? 12 then [92; 102]
  else if (32 <=? c) && (c <=? 126) then [c]
  else if c <? 0x10000 then 92 :: 117 :: hex4_chars c
  else
    let n := c - 0x10000 in
    (92 :: 117 :: hex4_chars (0xD800 + (n / 1024) mod 1024))
    ++ (92 :: 117 :: hex4_chars (0xDC00 + n mod 1024)).

(** [encode_basestring_ascii] *)
Definition encode_basestring_ascii (s : str) : str :=
  34 :: flat_map escape_char s ++ [34].

Fixpoint join (sep : str) (parts : list str) : str :=
  match parts with
  | [] => []
  | [p] => p
  | p :: rest => p ++ sep ++ join sep rest
  end.

Definition item_separator : str := [44; 32].
Definition key_separator : str := [58; 32].

Fixpoint dumps (v : value) : str :=
  match v with
  | VNone => lit "null"
  | VBool true => lit "true"
  | VBool false => lit "false"
  | VInt z => int_repr z
  | VFloat f => f
  | VStr s => encode_basestring_ascii s
  | VList l => 91 :: join item_separator (map dumps l) ++ [93]
  | VDict d =>
    123 :: join item_separator
             (map (fun kv => encode_basestring_ascii (fst kv)
                             ++ key_separator ++ dumps (snd kv)) d)
        ++ [125]
  end.

(** *** Parsing: [json.loads]

    The scanner is the recursive descent of [json.scanner] and
    [json.decoder].  A parse either yields a value and the text after it,
    fails (every failure of the scanner is a [JSONDecodeError]), or runs
    out of fuel. *)

Inductive pres (A : Type) : Type :=
| POk (a : A) (rest : str)
| PErr
| PFuel.
Arguments POk {A} a rest.
Arguments PErr {A}.
Arguments PFuel {A}.

Definition is_ws (c : char) : bool :=
  (c =? 32) || (c =? 9) || (c =? 10) || (c =? 13).

Fixpoint skip_ws (s : str) : str :=
  match s with
  | c :: r => if is_ws c then skip_ws r else s
  | [] => []
  end.

Definition is_digit (c : char) : bool := (48 <=? c) && (c <=? 57).

Definition hex_val (c : char) : option N :=
  if (48 <=? c) && (c <=? 57) then Some (c - 48)
  else if (97 <=? c) && (c <=? 102) then Some (c - 87)
  else if (65 <=? c) && (c <=? 70) then Some (c - 55)
  else None.

Definition hex4 (a b c d : char) : option N :=
  match hex_val a, hex_val b, hex_val c, hex_val d with
  | Some x, Some y, Some z, Some w => Some (((x * 16 + y) * 16 + z) * 16 + w)
  | _, _, _, _ => None
  end.

(** The character a backslash escape other than [\u] stands for. *)
Definition backslash (e : char) : option char :=
  if e =? 34 then Some 34
  else if e =? 92 then Some 92
  else if e =? 47 then Some 47
  else if e =? 98 then Some 8
  else if e =? 102 then Some 12
  else if e =? 110 then Some 10
  else if e =? 114 then Some 13
  else if e =? 116 then Some 9
  else None.

(** [scanstring], strict: the text after an opening quote, up to and
    including the closing one. *)
Fixpoint scanstring (s : str) (acc : str) {struct s} : pres str :=
  match s with
  | [] => PErr
  | c :: r =>
    if c =? 34 then POk (rev acc) r
    else if c =? 92 then
      match r with
      | [] => PErr
      | e :: r1 =>
        if e =? 117 then
          match r1 with
          | h1 :: h2 :: h3 :: h4 :: r2 =>
            match hex4 h1 h2 h3 h4 with
            | None => PErr
            | Some u =>
              match r2 with
              | b :: u' :: k1 :: k2 :: k3 :: k4 :: r3 =>
                if is_high_surrogate u && (b =? 92) && (u' =? 117) then
                  match hex4 k1 k2 k3 k4 with
                  | None => PErr
                  | Some u2 =>
                    if is_low_surrogate u2
                    then scanstring r3 (join_surrogates u u2 :: acc)
                    else scanstring r2 (u :: acc)
                  end
                else scanstring r2 (u :: acc)
              | _ => scanstring r2 (u :: acc)
              end
            end
          | _ => PErr
          end
        else
          match backslash e with
          | Some x => scanstring r1 (x :: acc)
          | None => PErr
          end
      end
    else if c <=? 31 then PErr
    else scanstring r (c :: acc)
  end.

Fixpoint span_digits (s : str) : str * str :=
  match s with
  | c :: r =>
    if is_digit c then let (d, r') := span_digits r in (c :: d, r')
    else ([], s)
  | [] => ([], [])
  end.

Definition cons_digit (c : char) (u : Decimal.uint) : Decimal.uint :=
  match c - 48 with
  | 0 => Decimal.D0 u
  | 1 => Decimal.D1 u
  | 2 => Decimal.D2 u
  | 3 => Decimal.D3 u
  | 4 => Decimal.D4 u
  | 5 => Decimal.D5 u
  | 6 => Decimal.D6 u
  | 7 => Decimal.D7 u
  | 8 => Decimal.D8 u
  | _ => Decimal.D9 u
  end.

Definition uint_of_chars (l : str) : Decimal.uint :=
  fold_right cons_digit Decimal.Nil l.

(** The fraction of a number literal: a point and at least one digit. *)
Definition match_fraction (s : str) : str * str :=
  match s with
  | c :: r =>
    if c =? 46 then
      match span_digits r with
      | ([], _) => ([], s)
      | (d, r') => (c :: d, r')
      end
    else ([], s)
  | [] => ([], s)
  end.

(** The exponent: [e] or [E], an optional sign, at least one digit. *)
Definition match_exponent (s : str) : str * str :=
  match s with
  | e :: r =>
    if (e =? 101) || (e =? 69) then
      let '(sg, r1) :=
        match r with
        | c :: r' => if (c =? 43) || (c =? 45) then ([c], r') else ([], r)
        | [] => ([], r)
        end in
      match span_digits r1 with
      | ([], _) => ([], s)
      | (d, r2) => (e :: sg ++ d, r2)
      end
    else ([], s)
  | [] => ([], s)
  end.

(** [match_number]: an optional minus sign; a zero, or a non-zero digit
    and any digits; an optional fraction; an optional exponent.  With
    neither fraction nor exponent the literal is an [int]. *)
Definition match_number (s : str) : pres value :=
  let '(neg, s1) :=
    match s with
    | c :: r => if c =? 45 then (true, r) else (false, s)
    | [] => (false, s)
    end in
  match s1 with
  | [] => PErr
  | c :: r =>
    if is_digit c then
      let '(ip, r1) :=
        if c =? 48 then ([c], r)
        else let (d, r') := span_digits r in (c :: d, r') in
      let '(fp, r2) := match_fraction r1 in
      let '(ep, r3) := match_exponent r2 in
      match fp, ep with
      | [], [] =>
        let n := Z.of_N (N.of_uint (uint_of_chars ip)) in
        POk (VInt (if neg then (- n)%Z else n)) r3
      | _, _ => POk (VFloat ((if neg then [45] else []) ++ ip ++ fp ++ ep)) r3
      end
    else PErr
  end.

Fixpoint strip_prefix (p s : str) : option str :=
  match p, s with
  | [], _ => Some s
  | x :: p', y :: s' => if x =? y then strip_prefix p' s' else None
  | _ :: _, [] => None
  end.

Definition keyword (kw : str) (v : value) (s : str) : pres value :=
  match strip_prefix kw s with
  | Some r => POk v r
  | None => match_number s
  end.

(** [scan_once] with the loops of [JSONArray] and [JSONObject]. *)
Fixpoint scan_once (fuel : nat) (s : str) {struct fuel} : pres value :=
  match fuel with
  | O => PFuel
  | S f =>
    match s with
    | [] => PErr
    | c :: r =>
      if c =? 34 then
        match scanstring r [] with
        | POk t r' => POk (VStr t) r'
        | PErr => PErr
        | PFuel => PFuel
        end
      else if c =? 123 then
        match skip_ws r with
        | c1 :: r1 =>
          if c1 =? 125 then POk (VDict []) r1
          else parse_object f (c1 :: r1) []
        | [] => PErr
        end
      else if c =? 91 then
        match skip_ws r with
        | c1 :: r1 =>
          if c1 =? 93 then POk (VList []) r1
          else parse_array f (c1 :: r1) []
        | [] => PErr
        end
      else if c =? 110 then keyword (lit "null") VNone s
      else if c =? 116 then keyword (lit "true") (VBool true) s
      else if c =? 102 then keyword (lit "false") (VBool false) s
      else if c =? 78 then keyword (lit "NaN") (VFloat (lit "NaN")) s
      else if c =? 73 then keyword (lit "Infinity") (VFloat (lit "Infinity")) s
      else if c =? 45 then keyword (lit "-Infinity") (VFloat (lit "-Infinity")) s
      else match_number s
    end
  end

with parse_array (fuel : nat) (s : str) (acc : list value) {struct fuel}
  : pres value :=
  match fuel with
  | O => PFuel
  | S f =>
    match scan_once f s with
    | POk v r =>
      match skip_ws r with
      | c :: r1 =>
        if c =? 93 then POk (VList (rev (v :: acc))) r1
        else if c =? 44 then parse_array f (skip_ws r1) (v :: acc)
        else PErr
      | [] => PErr
      end
    | PErr => PErr
    | PFuel => PFuel
    end
  end

with parse_object (fuel : nat) (s : str) (acc : dict) {struct fuel}
  : pres value :=
  match fuel with
  | O => PFuel
  | S f =>
    match s with
    | c :: r =>
      if c =? 34 then
        match scanstring r [] with
        | POk k r1 =>
          match skip_ws r1 with
          | c2 :: r2 =>
            if c2 =? 58 then
              match scan_once f (skip_ws r2) with
              | POk v r3 =>
                match skip_ws r3 with
                | c3 :: r4 =>
                  if c3 =? 125 then POk (VDict (dict_set k v acc)) r4
                  else if c3 =? 44
                  then parse_object f (skip_ws r4) (dict_set k v acc)
                  else PErr
                | [] => PErr
                end
              | PErr => PErr
              | PFuel => PFuel
              end
            else PErr
          | [] => PErr
          end
        | PErr => PErr
        | PFuel => PFuel
        end
      else PErr
    | [] => PErr
    end
  end.

Definition fuel_for (s : str) : nat := 2 * length s + 1.

(** [JSONDecoder.decode]: one value between optional white space. *)
Definition decode (s : str) : result value :=
  match scan_once (fuel_for s) (skip_ws s) with
  | POk v r =>
    match skip_ws r with
    | [] => Ok v
    | _ :: _ => Raise JSONDecodeError
    end
  | PErr => Raise JSONDecodeError
  | PFuel => Raise RuntimeError
  end.

(** [json.detect_encoding] *)
Inductive encoding : Type :=
| UTF8 | UTF8_SIG | UTF16 | UTF16_BE | UTF16_LE | UTF32 | UTF32_BE | UTF32_LE.

Definition bstartswith (p b : list N) : bool := startswith p b.

Definition detect_encoding (b : list N) : encoding :=
  if bstartswith [0x00; 0x00; 0xFE; 0xFF] b || bstartswith [0xFF; 0xFE; 0x00; 0x00] b
  then UTF32
  else if bstartswith [0xFE; 0xFF] b || bstartswith [0xFF; 0xFE] b then UTF16
  else if bstartswith [0xEF; 0xBB; 0xBF] b then UTF8_SIG
  else
    match b with
    | b0 :: b1 :: b2 :: b3 :: _ =>
      if b0 =? 0 then (if b1 =? 0 then UTF32_BE else UTF16_BE)
      else if b1 =? 0
      then (if negb (b2 =? 0) || negb (b3 =? 0) then UTF16_LE else UTF32_LE)
      else UTF8
    | [b0; b1] =>
      if b0 =? 0 then UTF16_BE
      else if b1 =? 0 then UTF16_LE
      else UTF8
    | _ => UTF8
    end.

(** [b.decode(enc, 'surrogatepass')] *)
Definition decode_as (enc : encoding) (b : list N) : option str :=
  match enc with
  | UTF8 => Codec.utf8_decode true b
  | UTF8_SIG => Codec.utf8_decode true (skipn 3 b)
  | UTF16_BE => Codec.utf16_decode true b
  | UTF16_LE => Codec.utf16_decode false b
  | UTF16 =>
    Codec.utf16_decode (bstartswith [0xFE; 0xFF] b) (skipn 2 b)
  | UTF32_BE => Codec.utf32_decode true b
  | UTF32_LE => Codec.utf32_decode false b
  | UTF32 =>
    Codec.utf32_decode (bstartswith [0x00; 0x00; 0xFE; 0xFF] b) (skipn 4 b)
  end.

(** [json.loads(data)] for [data] a [bytes] object. *)
Definition loads (data : bytes) : result value :=
  let b := map Byte.to_N data in
  match decode_as (detect_encoding b) b with
  | Some s => decode s
  | None => Raise UnicodeDecodeError
  end.


(** The characters a printed value can begin with. *)
Definition starts_value (c : char) : Prop :=
  c = 110 \/ c = 116 \/ c = 102 \/ c = 34 \/ c = 91 \/ c = 123 \/ c = 45
  \/ is_digit c = true.


End Json.

(** ** The world outside the two programs

    Sockets, subprocesses, files, the terminal and the random source answer
    through oracles over an abstract world.  A run threads the world and
    records each external call, in order, in a trace. *)

Module Eff.
Import Text Json.

Definition socket := N.
Definition address := (str * N)%type.

(** The text of one [print] call: the f-string and what it interpolates. *)
Inductive message : Type :=
| MConnected (addr : address)
| MReceived (text : str)
| MEmpty (addr : address)
| MTimeout (addr : address)
| MError (addr : address) (e : exn).

Inductive event (seconds : Type) : Type :=
| EPrint (m : message)
| ERun (cmd : value) (timeout : seconds)
| ESetTimeout (conn : socket) (timeout : seconds)
| ERecv (conn : socket) (bufsize : N)
| ESendall (conn : socket) (payload : bytes)
| EClose (conn : socket)
| ESocket
| EConnect (conn : socket) (host : str) (port : N)
| EOpen (path : str)
| EInput (prompt : str)
| EUrandom (size : N).
Arguments EPrint {seconds} m.
Arguments ERecv {seconds} conn bufsize.
Arguments ESendall {seconds} conn payload.
Arguments EClose {seconds} conn.
Arguments ESocket {seconds}.
Arguments EConnect {seconds} conn host port.
Arguments EOpen {seconds} path.
Arguments EInput {seconds} prompt.
Arguments EUrandom {seconds} size.

Section Monad.
Variables seconds World : Type.

Record state : Type := State { world : World; trace : list (event seconds) }.

Definition M (A : Type) : Type := state -> result A * state.

Definition ret {A} (a : A) : M A := fun st => (Ok a, st).

Definition raise {A} (e : exn) : M A := fun st => (Raise e, st).

Definition bind {A B} (m : M A) (k : A -> M B) : M B :=
  fun st =>
    match m st with
    | (Ok a, st') => k a st'
    | (Raise e, st') => (Raise e, st')
    end.

Definition lift {A} (r : result A) : M A := fun st => (r, st).

(** One external call: the oracle answers, the trace grows. *)
Definition call {A} (e : event seconds) (oracle : World -> result A * World)
  : M A :=
  fun st =>
    let (r, w) := oracle (world st) in
    (r, State w (trace st ++ [e])).

Definition emit (e : event seconds) : M unit :=
  fun st => (Ok tt, State (world st) (trace st ++ [e])).

(** [try: body / except ...:], the handler telling which exceptions its
    clauses catch. *)
Definition try_except {A} (body : M A) (handler : exn -> option (M A)) : M A :=
  fun st =>
    match body st with
    | (Ok a, st') => (Ok a, st')
    | (Raise e, st') =>
      match handler e with
      | Some h => h st'
      | None => (Raise e, st')
      end
    end.

(** [try: body / finally: final] *)
Definition try_finally {A} (body : M A) (final : M unit) : M A :=
  fun st =>
    match body st with
    | (r, st') =>
      match final st' with
      | (Ok _, st'') => (r, st'')
      | (Raise e, st'') => (Raise e, st'')
      end
    end.
End Monad.

Arguments ret {seconds World A} a.
Arguments raise {seconds World A} e.
Arguments lift {seconds World A} r.
Arguments emit {seconds World} e.
End Eff.

Declare Scope eff_scope.
Delimit Scope eff_scope with eff.
Notation "x <- c ;; k" := (Eff.bind c (fun x => k))
  (at level 61, c at next level, right associativity) : eff_scope.
Notation "c ;;; k" := (Eff.bind c (fun _ => k))
  (at level 61, right associativity) : eff_scope.

(** ** [server.py] *)

Module Server.
Import Text Json Eff.
Local Open Scope eff_scope.

(** What [subprocess.run] hands back when the process ends in time. *)
Record CompletedProcess : Type :=
  Completed { returncode : Z; stdout : str; stderr : str }.

Section Server.
Variables seconds World : Type.

Record env : Type := Env {
  subprocess_run : value -> seconds -> World -> result CompletedProcess * World;
  conn_recv : socket -> N -> World -> result bytes * World;
  conn_sendall : socket -> bytes -> World -> result unit * World;
  conn_close : socket -> World -> result unit * World
}.

(** The attributes [__init__] sets; the two timeouts come from
    [server_config]. *)
Record t : Type := New {
  host : str;
  port : N;
  cmd_timeout : seconds;
  conn_timeout : seconds
}.

Variable E : env.
Variable self : t.

Local Abbreviation M := (M seconds World).

(** [obj[key]] for a string key *)
Definition getitem (obj : value) (key : str) : result value :=
  match obj with
  | VDict d =>
    match dict_get key d with
    | Some v => Ok v
    | None => Raise KeyError
    end
  | _ => Raise TypeError
  end.

(** The items a [for] loop draws from [obj]. *)
Definition iter (obj : value) : result (list value) :=
  match obj with
  | VList l => Ok l
  | VDict d => Ok (map (fun kv => VStr (fst kv)) d)
  | VStr s => Ok (map (fun c => VStr [c]) s)
  | _ => Raise TypeError
  end.

(** [obj.update({key: v})] *)
Definition update (obj : value) (key : str) (v : value) : result value :=
  match obj with
  | VDict d => Ok (VDict (dict_set key v d))
  | _ => Raise AttributeError
  end.

(** [l[-1].update({key: v})] *)
Definition update_last (l : list value) (key : str) (v : value)
  : result (list value) :=
  match rev l with
  | last :: front =>
    match update last key v with
    | Ok last' => Ok (rev front ++ [last'])
    | Raise e => Raise e
    end
  | [] => Raise IndexError
  end.

Definition not_found : str := lit "not found".

Definition execute_cmd (cmd : value) : M value :=
  result <- call (ERun cmd (cmd_timeout self))
                 (subprocess_run E cmd (cmd_timeout self)) ;;
  let status := if (returncode result =? 0)%Z then true else false in
  let error_code := 0%Z in
  let error_code :=
    if contains not_found (stderr result) then 3%Z else error_code in
  ret (VDict [(lit "status", VBool status);
              (lit "stdout", VStr (stdout result));
              (lit "stderr", VStr (stderr result));
              (lit "error_code", VInt error_code)]).

(** The body of [for cmd in data], [response] being
    [result["response"]]. *)
Fixpoint for_cmd (data : list value) (response : list value) : M (list value) :=
  match data with
  | [] => ret response
  | cmd :: rest =>
    method <- lift (getitem cmd (lit "method")) ;;
    r <- execute_cmd method ;;
    let response := response ++ [r] in
    id <- lift (getitem cmd (lit "id")) ;;
    response <- lift (update_last response (lit "id") id) ;;
    for_cmd rest response
  end.

Definition error_code_of (e : exn) : Z :=
  match e with
  | JSONDecodeError => 1
  | KeyError => 2
  | _ => 4
  end.

Definition error_response (error_code : Z) : value :=
  VDict [(lit "response",
          VDict [(lit "status", VBool false);
                 (lit "error_code", VInt error_code)])].

(** The [try] block of [request_parser], up to the value it prints. *)
Definition request_parser_try (data : bytes) : M value :=
  request <- lift (loads data) ;;
  data <- lift (getitem request (lit "commands")) ;;
  items <- lift (iter data) ;;
  response <- for_cmd items [] ;;
  ret (VDict [(lit "response", VList response)]).

(** The value [request_parser] prints: the one its [try] block built,
    or the error object of the [except] clause that ran. *)
Definition request_parser_value (data : bytes) : M value :=
  try_except (request_parser_try data)
             (fun e => Some (ret (error_response (error_code_of e)))).

Definition request_parser (data : bytes) : M str :=
  result <- request_parser_value data ;;
  ret (dumps result).

Definition handle_client (conn : socket) (addr : address) : M unit :=
  try_finally
    (try_except
       (emit (EPrint (MConnected addr)) ;;;
        emit (ESetTimeout conn (conn_timeout self)) ;;;
        data <- call (ERecv conn 1024) (conn_recv E conn 1024) ;;
        match data with
        | _ :: _ =>
          text <- lift (Codec.decode data) ;;
          emit (EPrint (MReceived text)) ;;;
          result <- request_parser data ;;
          payload <- lift (Codec.encode result) ;;
          call (ESendall conn payload) (conn_sendall E conn payload)
        | [] => emit (EPrint (MEmpty addr))
        end)
       (fun e =>
          match e with
          | SocketTimeout => Some (emit (EPrint (MTimeout addr)))
          | _ => Some (emit (EPrint (MError addr e)))
          end))
    (call (EClose conn) (conn_close E conn)).
End Server.
End Server.

(** ** [client.py] *)

Module Client.
Import Text Json Eff.
Local Open Scope eff_scope.

(** [uuid.UUID(bytes=os.urandom(16), version=4).int], [r] being the sixteen
    random octets read as a big-endian integer. *)
Definition uuid4_int (r : N) : N :=
  let int := (r mod 2 ^ 128)%N in
  let int := N.ldiff int (N.shiftl 0xc000 48) in
  let int := N.lor int (N.shiftl 0x8000 48) in
  let int := N.ldiff int (N.shiftl 0xf000 64) in
  let int := N.lor int (N.shiftl 4 76) in
  int.

(** ['%0*x' % (width, x)] for [x] of at most [width] hexadecimal digits *)
Fixpoint hex_chars (width : nat) (x : N) : str :=
  match width with
  | O => []
  | S w => hex_chars w (x / 16)%N ++ [hex_digit (x mod 16)%N]
  end.

(** [str(u)] for a UUID of integer value [int] *)
Definition uuid_str (int : N) : str :=
  let hex := hex_chars 32 int in
  firstn 8 hex ++ [45%N] ++ firstn 4 (skipn 8 hex) ++ [45%N]
  ++ firstn 4 (skipn 12 hex) ++ [45%N] ++ firstn 4 (skipn 16 hex) ++ [45%N]
  ++ skipn 20 hex.

(** The text of a UUID without its dashes: its thirty-two digits. *)
Definition undash (s : str) : str :=
  firstn 8 s ++ firstn 4 (skipn 9 s) ++ firstn 4 (skipn 14 s)
  ++ firstn 4 (skipn 19 s) ++ skipn 24 s.

(** The command objects built for the strings [data] with the UUIDs [us]. *)
Definition commands_of (us : list N) (data : list str) : list value :=
  map (fun ud => VDict [(lit "id", VStr (uuid_str (fst ud)));
                        (lit "method", VStr (snd ud))])
      (combine us data).

(** The pair [get_cmd] returns: [(True, cmd)] or [(False, message)]. *)
Inductive sourced : Type :=
| Sourced (cmd : list str)
| NotSourced (message : str).

Definition prompt : str := lit "Enter linux command >> ".
Definition unable_to_locate : str := lit "Unable to locate file!".

Section Client.
Variables seconds World : Type.

Record env : Type := Env {
  open_readlines : str -> World -> result (list str) * World;
  input : str -> World -> result str * World;
  os_urandom : N -> World -> N * World;
  socket_new : World -> result socket * World;
  sock_connect : socket -> str -> N -> World -> result unit * World;
  sock_sendall : socket -> bytes -> World -> result unit * World;
  sock_recv : socket -> N -> World -> result bytes * World;
  sock_close : socket -> World -> result unit * World
}.

Record t : Type := New { host : str; port : N }.

Variable E : env.
Variable self : t.

Local Abbreviation M := (M seconds World).

(** [uuid.uuid4()] *)
Definition uuid4 : M N :=
  r <- call (EUrandom 16) (fun w => let (r, w') := os_urandom E 16 w in (Ok r, w')) ;;
  ret (uuid4_int r).

(** The UUIDs the next [n] calls of [uuid4] draw from world [w]. *)
Fixpoint uuids (n : nat) (w : World) : list N * World :=
  match n with
  | O => ([], w)
  | S k =>
    let (r, w1) := os_urandom E 16 w in
    let (us, w2) := uuids k w1 in
    (uuid4_int r :: us, w2)
  end.

Definition get_cmd (file_path : option str) : M sourced :=
  let cmd : list str := [] in
  try_except
    (lines <- match file_path with
              | Some path => call (EOpen path) (open_readlines E path)
              | None => raise TypeError
              end ;;
     match lines with
     | [] => raise TypeError
     | _ :: _ =>
       let lines := map strip lines in
       ret (Sourced (cmd ++ lines))
     end)
    (fun e =>
       match e with
       | FileNotFoundError => Some (ret (NotSourced unable_to_locate))
       | TypeError =>
         Some (line <- call (EInput prompt) (input E prompt) ;;
               ret (Sourced (cmd ++ [line])))
       | _ => None
       end).

(** The body of [for cmd in data], [commands] being [request["commands"]]. *)
Fixpoint for_cmd (data : list str) (commands : list value) : M (list value) :=
  match data with
  | [] => ret commands
  | cmd :: rest =>
    u <- uuid4 ;;
    for_cmd rest (commands ++ [VDict [(lit "id", VStr (uuid_str u));
                                      (lit "method", VStr cmd)]])
  end.

(** The request object [generate_request] prints. *)
Definition request_of (commands : list value) : value :=
  VDict [(lit "commands", VList commands)].

Definition generate_request (file_path : option str) : M (bool * str) :=
  got <- get_cmd file_path ;;
  match got with
  | Sourced data =>
    commands <- for_cmd data [] ;;
    ret (true, dumps (request_of commands))
  | NotSourced data => ret (false, data)
  end.

Definition send_request (file_path : option str) : M str :=
  client_socket <- call ESocket (socket_new E) ;;
  try_finally
    (call (EConnect client_socket (host self) (port self))
          (sock_connect E client_socket (host self) (port self)) ;;;
     generated <- generate_request file_path ;;
     (if fst generated
      then payload <- lift (Codec.encode (snd generated)) ;;
           call (ESendall client_socket payload)
                (sock_sendall E client_socket payload)
      else ret tt) ;;;
     data <- call (ERecv client_socket 1024) (sock_recv E client_socket 1024) ;;
     lift (Codec.decode data))
    (call (EClose client_socket) (sock_close E client_socket)).
End Client.
End Client.

(** ** Batches

    The notions the properties of the dispatcher are stated with: which
    entries of a request are commands, and what the subprocesses answer when
    a list of methods is run in order. *)

Module Batch.
Import Text Json Eff Server.

(** An entry that has both keys the dispatcher looks up. *)
Definition is_command (cmd : value) : bool :=
  match cmd with
  | VDict d => dict_has (lit "method") d && dict_has (lit "id") d
  | _ => false
  end.


Definition method_of (cmd : value) : value :=
  match getitem cmd (lit "method") with
  | Ok m => m
  | Raise _ => VNone
  end.

Definition id_of (cmd : value) : value :=
  match getitem cmd (lit "id") with
  | Ok i => i
  | Raise _ => VNone
  end.

Section Executions.
Variables seconds World : Type.
Variable E : env seconds World.
Variable self : Server.t seconds.

(** The answers of the subprocesses to [methods], run in order from world
    [w] up to the first one that raises. *)
Fixpoint executions (methods : list value) (w : World)
  : result (list CompletedProcess) * World :=
  match methods with
  | [] => (Ok [], w)
  | m :: rest =>
    match subprocess_run E m (cmd_timeout self) w with
    | (Ok p, w') =>
      match executions rest w' with
      | (Ok ps, w'') => (Ok (p :: ps), w'')
      | (Raise e, w'') => (Raise e, w'')
      end
    | (Raise e, w') => (Raise e, w')
    end
  end.
End Executions.

(** The entry of the response for a process that ended as [p], once the
    [id] of its command is attached. *)
Definition result_of (p : CompletedProcess) (id : value) : value :=
  VDict [(lit "status", VBool (returncode p =? 0)%Z);
         (lit "stdout", VStr (stdout p));
         (lit "stderr", VStr (stderr p));
         (lit "error_code",
          VInt (if contains not_found (stderr p) then 3 else 0)%Z);
         (lit "id", id)].

Definition results_of (cmds : list value) (ps : list CompletedProcess)
  : list value :=
  map (fun cp => result_of (snd cp) (id_of (fst cp))) (combine cmds ps).

End Batch.

(** ** The clauses of [handle_client] *)

Module Handler.
Import Text Eff Server.

(** The message of the [except] clause that handles [e]. *)
Definition handler_message (addr : address) (e : exn) : message :=
  match e with
  | SocketTimeout => MTimeout addr
  | _ => MError addr e
  end.

Section Closing.
Variables seconds World : Type.
Variable E : env seconds World.

(** The [finally] clause, run from state [st]. *)
Definition closing (conn : socket) (st : state seconds World)
  : result unit * state seconds World :=
  match conn_close E conn (world st) with
  | (Ok _, w) => (Ok tt, State w (trace st ++ [EClose conn]))
  | (Raise e, w) => (Raise e, State w (trace st ++ [EClose conn]))
  end.
End Closing.
End Handler.

(** ** Reading a trace *)

Module Trace.
Import Eff.

Definition is_run {seconds : Type} (e : event seconds) : bool :=
  match e with ERun _ _ => true | _ => false end.

Definition is_recv {seconds : Type} (e : event seconds) : bool :=
  match e with ERecv _ _ => true | _ => false end.

Definition is_sendall {seconds : Type} (e : event seconds) : bool :=
  match e with ESendall _ _ => true | _ => false end.

Definition is_close {seconds : Type} (e : event seconds) : bool :=
  match e with EClose _ => true | _ => false end.


(** How many events of a kind a trace holds. *)
Definition count {A : Type} (kind : A -> bool) (tr : list A) : nat :=
  length (filter kind tr).
End Trace.

(** ** Scripted worlds

    Concrete oracles for the examples: a world is the script of the answers
    still to come. *)

Module Script.
Import Text Json Eff.

(** A server side whose subprocesses answer from a script, in order, and
    whose connection reads [received] and accepts every write. *)
Definition server_env (received : result bytes)
  : Server.env N (list (result Server.CompletedProcess)) :=
  Server.Env
    (fun _ _ w =>
       match w with
       | r :: w' => (r, w')
       | [] => (Raise OSError, [])
       end)
    (fun _ _ w => (received, w))
    (fun _ _ w => (Ok tt, w))
    (fun _ w => (Ok tt, w)).

Definition server : Server.t N := Server.New (lit "127.0.0.1") 8080%N 5%N 10%N.

Definition start (World : Type) (w : World) : state N World := State w [].

(** The bytes [json.dumps(v).encode()] puts on the wire. *)
Definition wire (v : value) : bytes := map byte_of_N (dumps v).

Definition command (id method : String.string) : value :=
  VDict [(lit "id", VStr (lit id)); (lit "method", VStr (lit method))].
Arguments command (id method)%_string.

(** A client side: the file system answers [file], the terminal [typed],
    the random source counts up from the world, the socket reads
    [received]. *)
Definition client_env (file : result (list str)) (typed : str)
           (received : bytes) : Client.env N :=
  Client.Env
    (fun _ w => (file, w))
    (fun _ w => (Ok typed, w))
    (fun _ w => (w, N.succ w))
    (fun w => (Ok 3%N, w))
    (fun _ _ _ w => (Ok tt, w))
    (fun _ _ w => (Ok tt, w))
    (fun _ _ w => (Ok received, w))
    (fun _ w => (Ok tt, w)).

(** Three commands on the wire:
    {"commands": [{"id": "001", "method": "echo success"},
                  {"id": "002", "method": "sleep 60"},
                  {"id": "003", "method": "echo another"}]} *)
Definition three_commands : bytes :=
  wire (VDict [(lit "commands",
                VList [command "001" "echo success";
                       command "002" "sleep 60";
                       command "003" "echo another"])]).

(** One entry without an [id]: {"commands": [{"method": "sleep 60"}]} *)
Definition no_id : bytes :=
  wire (VDict [(lit "commands",
                VList [VDict [(lit "method", VStr (lit "sleep 60"))]])]).


Definition exited (returncode : Z) (stdout stderr : String.string)
  : result Server.CompletedProcess :=
  Ok (Server.Completed returncode (lit stdout) (lit stderr)).
Arguments exited returncode (stdout stderr)%_string.

Definition client : Client.t := Client.New (lit "127.0.0.1") 8080%N.
End Script.

(** ** Text that survives the wire

    What the response text is made of, and what a line read from the
    command file looks like once stripped. *)

Module Plainness.
Import Text Json.
Local Open Scope N_scope.

(** A character [str.encode] writes as one octet, and not NUL. *)
Definition is_ascii (c : char) : bool := (1 <=? c) && (c <=? 127).

(** Every number literal inside [v] is ASCII. *)
Fixpoint ascii_floats (v : value) : bool :=
  match v with
  | VNone | VBool _ | VInt _ | VStr _ => true
  | VFloat f => forallb is_ascii f
  | VList l => forallb ascii_floats l
  | VDict d => forallb (fun kv => ascii_floats (snd kv)) d
  end.

(** A string with no white space at either end. *)
Definition trimmed (s : str) : bool :=
  match s with
  | [] => true
  | c :: _ => negb (isspace c) && negb (isspace (last s 0))
  end.

(** A lower-case hexadecimal digit: one of [0-9a-f]. *)
Definition is_lower_hex (c : char) : bool :=
  ((48 <=? c) && (c <=? 57)) || ((97 <=? c) && (c <=? 102)).
End Plainness.

(** ** The accept loop of [server.py]

    [Server.start] as its own thread sees it: the calls on the listening
    socket and the threads it starts.  A started thread runs
    [handle_client] beside the loop; here it is the event of its start,
    with the arguments of its target.  The loop has no exit of its own, so
    a run is followed for a number of rounds. *)

Module Listener.
Import Text Eff.

Inductive event : Type :=
| LSocket
| LSetsockopt (sock : socket)
| LBind (sock : socket) (host : str) (port : N)
| LListen (sock : socket)
| LPrint (host : str) (port : N)
| LAccept (sock : socket)
| LThreadStart (conn : socket) (addr : address)
| LClose (sock : socket).

Definition is_accept (e : event) : bool :=
  match e with LAccept _ => true | _ => false end.

Definition is_thread_start (e : event) : bool :=
  match e with LThreadStart _ _ => true | _ => false end.

Definition is_close (e : event) : bool :=
  match e with LClose _ => true | _ => false end.

(** How a run stands: left by an exception, or still in the loop when the
    rounds are used up. *)
Inductive outcome : Type :=
| Raised (e : exn)
| Running.

Section Listener.
Variables seconds World : Type.

Record env : Type := Env {
  socket_new : World -> result socket * World;
  setsockopt : socket -> World -> result unit * World;
  bind : socket -> str -> N -> World -> result unit * World;
  listen : socket -> World -> result unit * World;
  accept : socket -> World -> result (socket * address) * World;
  thread_start : socket -> address -> World -> result unit * World;
  close : socket -> World -> result unit * World
}.

Record run : Type := Run { world_of : World; events : list event }.

Variable E : env.
Variable self : Server.t seconds.

(** One external call: the oracle answers, the trace grows. *)
Definition call {A} (e : event) (oracle : World -> result A * World)
           (st : run) : result A * run :=
  let (r, w) := oracle (world_of st) in
  (r, Run w (events st ++ [e])).

(** [while True:] followed for [rounds] rounds *)
Fixpoint while_true (rounds : nat) (server_socket : socket) (st : run)
  : outcome * run :=
  match rounds with
  | O => (Running, st)
  | S rounds' =>
    match call (LAccept server_socket) (accept E server_socket) st with
    | (Ok (conn, addr), st1) =>
      match call (LThreadStart conn addr) (thread_start E conn addr) st1 with
      | (Ok _, st2) => while_true rounds' server_socket st2
      | (Raise e, st2) => (Raised e, st2)
      end
    | (Raise e, st1) => (Raised e, st1)
    end
  end.

(** The body of the [with] statement *)
Definition serving (rounds : nat) (server_socket : socket) (st : run)
  : outcome * run :=
  match call (LSetsockopt server_socket) (setsockopt E server_socket) st with
  | (Ok _, st1) =>
    match call (LBind server_socket (Server.host self) (Server.port self))
               (bind E server_socket (Server.host self) (Server.port self))
               st1 with
    | (Ok _, st2) =>
      match call (LListen server_socket) (listen E server_socket) st2 with
      | (Ok _, st3) =>
        while_true rounds server_socket
          (Run (world_of st3)
               (events st3 ++ [LPrint (Server.host self) (Server.port self)]))
      | (Raise e, st3) => (Raised e, st3)
      end
    | (Raise e, st2) => (Raised e, st2)
    end
  | (Raise e, st1) => (Raised e, st1)
  end.

(** [with socket.socket(...) as server_socket:] closes the socket when its
    body is left. *)
Definition start (rounds : nat) (st : run) : outcome * run :=
  match call LSocket (socket_new E) st with
  | (Ok server_socket, st1) =>
    match serving rounds server_socket st1 with
    | (Running, st2) => (Running, st2)
    | (Raised e, st2) =>
      match call (LClose server_socket) (close E server_socket) st2 with
      | (Ok _, st3) => (Raised e, st3)
      | (Raise e', st3) => (Raised e', st3)
      end
    end
  | (Raise e, st1) => (Raised e, st1)
  end.

(** What the next [n] calls of [accept] answer from world [w], each
    followed by the start of its thread, up to the first call that
    raises. *)
Fixpoint accepted (n : nat) (sock : socket) (w : World)
  : list (socket * address) :=
  match n with
  | O => []
  | S k =>
    match accept E sock w with
    | (Ok (conn, addr), w1) =>
      (conn, addr) ::
      match thread_start E conn addr w1 with
      | (Ok _, w2) => accepted k sock w2
      | (Raise _, _) => []
      end
    | (Raise _, _) => []
    end
  end.

(** The calls of one round for the connection [ca]. *)
Definition round (sock : socket) (ca : socket * address) : list event :=
  [LAccept sock; LThreadStart (fst ca) (snd ca)].
End Listener.

(** A listening side whose [accept] answers from a script, in order, and
    raises when the script is used up; every other call succeeds. *)
Definition scripted : env (list (socket * address)) :=
  Env (fun w => (Ok 3%N, w))
      (fun _ w => (Ok tt, w))
      (fun _ _ _ w => (Ok tt, w))
      (fun _ w => (Ok tt, w))
      (fun _ w =>
         match w with
         | ca :: w' => (Ok ca, w')
         | [] => (Raise OSError, [])
         end)
      (fun _ _ w => (Ok tt, w))
      (fun _ w => (Ok tt, w)).
End Listener.

(* ================================================================= *)
(** * Properties *)


Unset Implicit Arguments.


Module TextFacts.
Import Text.
Local Open Scope N_scope.




Lemma startswith_spec (p s : str) :
  startswith p s = true <-> exists post, s = p ++ post.
Proof.
  revert s; induction p as [|x p IH]; intros s; simpl.
  - split; [intros _; exists s; reflexivity | reflexivity].
  - destruct s as [|y s].
    + split; [discriminate | intros [post H]; discriminate].
    + rewrite andb_true_iff, N.eqb_eq, IH. split.
      * intros [-> [post ->]]. exists post; reflexivity.
      * intros [post H]. injection H as -> ->. split; [reflexivity | eauto].
Qed.

(** [contains sub s] is Python's [sub in s]: [sub] occurs somewhere in [s]. *)
Lemma contains_spec (sub s : str) :
  contains sub s = true <-> exists pre post, s = pre ++ sub ++ post.
Proof.
  induction s as [|c s IH]; simpl; rewrite orb_true_iff, startswith_spec.
  - split.
    + intros [[post H] | H]; [|discriminate]. exists [], post; exact H.
    + intros [pre [post H]]. left. destruct pre; simpl in H.
      * exists post; exact H.
      * discriminate.
  - rewrite IH. split.
    + intros [[post H] | [pre [post H]]].
      * exists [], post; exact H.
      * exists (c :: pre), post. simpl. rewrite H. reflexivity.
    + intros [pre [post H]]. destruct pre as [|x pre]; simpl in H.
      * left. exists post; exact H.
      * right. injection H as _ H. exists pre, post; exact H.
Qed.
End TextFacts.

Module ServerFacts.
Import Text Json Eff Server.

Section Executor.
Variables seconds World : Type.
Variable E : env seconds World.
Variable self : Server.t seconds.

Lemma execute_cmd_eq (cmd : value) (st : state seconds World) :
  execute_cmd E self cmd st =
  match subprocess_run E cmd (cmd_timeout self) (world st) with
  | (Ok p, w) =>
    (Ok (VDict [(lit "status", VBool (returncode p =? 0)%Z);
                (lit "stdout", VStr (stdout p));
                (lit "stderr", VStr (stderr p));
                (lit "error_code",
                 VInt (if contains not_found (stderr p) then 3 else 0)%Z)]),
     State w (trace st ++ [ERun cmd (cmd_timeout self)]))
  | (Raise e, w) => (Raise e, State w (trace st ++ [ERun cmd (cmd_timeout self)]))
  end.
Proof.
  unfold execute_cmd, bind, call, ret.
  destruct (subprocess_run E cmd (cmd_timeout self) (world st)) as [[p|e] w];
    [|reflexivity].
  destruct (returncode p =? 0)%Z; reflexivity.
Qed.
End Executor.

End ServerFacts.


Module DispatcherFacts.
Import Text Json Eff Server Batch.
Import ServerFacts.

Section Dispatcher.
Variables seconds World : Type.
Variable E : env seconds World.
Variable self : Server.t seconds.

Lemma update_last_snoc (l : list value) (d : dict) (k : str) (v : value) :
  update_last (l ++ [VDict d]) k v = Ok (l ++ [VDict (dict_set k v d)]).
Proof.
  unfold update_last. rewrite rev_app_distr. simpl. rewrite rev_involutive.
  reflexivity.
Qed.

Lemma is_command_inv (cmd : value) :
  is_command cmd = true ->
  exists d m i, cmd = VDict d /\ dict_get (lit "method") d = Some m
                /\ dict_get (lit "id") d = Some i.
Proof.
  destruct cmd; try (intros H; discriminate H). unfold is_command, dict_has.
  destruct (dict_get (lit "method") d) as [m|] eqn:Hm; [|discriminate].
  destruct (dict_get (lit "id") d) as [i|] eqn:Hi; [|discriminate].
  intros _. exists d, m, i. auto.
Qed.

(** One turn of the loop on an entry that has both keys. *)
Lemma for_cmd_step (cmd : value) (rest acc : list value) (st : state seconds World) :
  is_command cmd = true ->
  for_cmd E self (cmd :: rest) acc st =
  match subprocess_run E (method_of cmd) (cmd_timeout self) (world st) with
  | (Ok p, w) =>
    for_cmd E self rest (acc ++ [result_of p (id_of cmd)])
            (State w (trace st ++ [ERun (method_of cmd) (cmd_timeout self)]))
  | (Raise e, w) =>
    (Raise e, State w (trace st ++ [ERun (method_of cmd) (cmd_timeout self)]))
  end.
Proof.
  intros H. destruct (is_command_inv _ H) as (d & m & i & -> & Hm & Hi).
  unfold method_of, id_of. simpl getitem. rewrite Hm, Hi.
  simpl for_cmd. rewrite Hm.
  unfold bind at 1. unfold lift at 1.
  unfold bind at 1. rewrite execute_cmd_eq.
  destruct (subprocess_run E m (cmd_timeout self) (world st)) as [[p|e] w];
    [|reflexivity].
  unfold bind at 1. unfold lift at 1. rewrite Hi.
  unfold bind at 1. unfold lift at 1.
  rewrite update_last_snoc. reflexivity.
Qed.

Lemma for_cmd_completes (cmds : list value) :
  forallb is_command cmds = true ->
  forall acc st ps w,
    executions E self (map method_of cmds) (world st) = (Ok ps, w) ->
    for_cmd E self cmds acc st =
    (Ok (acc ++ results_of cmds ps),
     State w (trace st
              ++ map (fun c => ERun (method_of c) (cmd_timeout self)) cmds))
    /\ length ps = length cmds.
Proof.
  induction cmds as [|cmd cmds IH]; intros Hc acc st ps w Hx.
  - simpl in Hx. injection Hx as <- <-. simpl. unfold ret.
    rewrite !app_nil_r. destruct st; auto.
  - simpl in Hc. apply andb_true_iff in Hc as [Hc1 Hc2].
    rewrite for_cmd_step by exact Hc1. simpl in Hx.
    destruct (subprocess_run E (method_of cmd) (cmd_timeout self) (world st))
      as [[p|e] w1]; [|discriminate].
    destruct (executions E self (map method_of cmds) w1) as [[ps1|e] w2] eqn:Hx1;
      [|discriminate].
    injection Hx as <- <-.
    destruct (IH Hc2 (acc ++ [result_of p (id_of cmd)])
                 (State w1 (trace st ++ [ERun (method_of cmd) (cmd_timeout self)]))
                 ps1 w2 Hx1) as [-> Hlen].
    simpl. rewrite <- !app_assoc. simpl. split; [reflexivity | congruence].
Qed.

Lemma for_cmd_raises (cmds : list value) :
  forallb is_command cmds = true ->
  forall acc st e w,
    executions E self (map method_of cmds) (world st) = (Raise e, w) ->
    exists tr, for_cmd E self cmds acc st = (Raise e, State w tr).
Proof.
  induction cmds as [|cmd cmds IH]; intros Hc acc st e w Hx.
  - discriminate.
  - simpl in Hc. apply andb_true_iff in Hc as [Hc1 Hc2].
    rewrite for_cmd_step by exact Hc1. simpl in Hx.
    destruct (subprocess_run E (method_of cmd) (cmd_timeout self) (world st))
      as [[p|e1] w1].
    + destruct (executions E self (map method_of cmds) w1) as [[ps1|e2] w2] eqn:Hx1;
        [discriminate|].
      injection Hx as <- <-.
      apply (IH Hc2 _ (State w1 _) _ _ Hx1).
    + injection Hx as <- <-. eauto.
Qed.

Lemma for_cmd_app (pre post acc : list value) (st : state seconds World) :
  for_cmd E self (pre ++ post) acc st =
  bind (for_cmd E self pre acc) (fun r => for_cmd E self post r) st.
Proof.
  revert acc st. induction pre as [|cmd pre IH]; intros acc st.
  - reflexivity.
  - simpl for_cmd. unfold bind, lift.
    destruct (getitem cmd (lit "method")) as [m|e]; [|reflexivity].
    destruct (execute_cmd E self m st) as [[r|e] st2]; [|reflexivity].
    destruct (getitem cmd (lit "id")) as [i|e]; [|reflexivity].
    destruct (update_last (acc ++ [r]) (lit "id") i) as [resp|e]; [|reflexivity].
    rewrite IH. reflexivity.
Qed.

(** What the [try] block does once the bytes are parsed and the commands
    found. *)
Lemma request_parser_try_eq (data : bytes) (st : state seconds World) :
  request_parser_try E self data st =
  match loads data with
  | Ok request =>
    match getitem request (lit "commands") with
    | Ok c =>
      match iter c with
      | Ok items =>
        match for_cmd E self items [] st with
        | (Ok response, st') => (Ok (VDict [(lit "response", VList response)]), st')
        | (Raise e, st') => (Raise e, st')
        end
      | Raise e => (Raise e, st)
      end
    | Raise e => (Raise e, st)
    end
  | Raise e => (Raise e, st)
  end.
Proof.
  unfold request_parser_try, bind, lift, ret.
  destruct (loads data) as [request|e]; [|reflexivity].
  destruct (getitem request (lit "commands")) as [c|e]; [|reflexivity].
  destruct (iter c) as [items|e]; reflexivity.
Qed.

Lemma request_parser_value_eq (data : bytes) (st : state seconds World) :
  request_parser_value E self data st =
  match request_parser_try E self data st with
  | (Ok v, st') => (Ok v, st')
  | (Raise e, st') => (Ok (error_response (error_code_of e)), st')
  end.
Proof. reflexivity. Qed.

Lemma request_parser_eq (data : bytes) (st : state seconds World) :
  request_parser E self data st =
  match request_parser_value E self data st with
  | (Ok v, st') => (Ok (dumps v), st')
  | (Raise e, st') => (Raise e, st')
  end.
Proof. reflexivity. Qed.
End Dispatcher.
End DispatcherFacts.


Module ResponseOrder.
Import Text Json Eff Server Batch.
Import ServerFacts DispatcherFacts.


Lemma getitem_id_of (cmd : value) :
  is_command cmd = true -> getitem cmd (lit "id") = Ok (id_of cmd).
Proof.
  intros H. destruct (is_command_inv _ H) as (d & m & i & -> & Hm & Hi).
  unfold id_of. simpl. rewrite Hi. reflexivity.
Qed.


Lemma results_of_length (cmds : list value) (ps : list CompletedProcess) :
  length ps = length cmds -> length (results_of cmds ps) = length cmds.
Proof.
  intros H. unfold results_of. rewrite length_map, length_combine. lia.
Qed.


End ResponseOrder.


Module DispatcherProperties.
Import Text Json Eff Server Batch.
Import ServerFacts DispatcherFacts ResponseOrder.



(** C4, as stated, fails: a process that writes "not found" to its error
    stream and exits with code zero gets [status] true. *)
Lemma not_found_with_exit_code_zero :
  contains not_found (lit "grep: pattern not found") = true
  /\ fst (execute_cmd (Script.server_env (Ok [])) Script.server
                      (VStr (lit "./report.sh"))
                      (Script.start
                         [Script.exited 0%Z EmptyString "grep: pattern not found"]))
     = Ok (VDict [(lit "status", VBool true);
                  (lit "stdout", VStr (lit EmptyString));
                  (lit "stderr", VStr (lit "grep: pattern not found"));
                  (lit "error_code", VInt 3)]).
Proof. split; vm_compute; reflexivity. Qed.

(** C4, amended.  When the captured [stderr] contains "not found" the
    result has [error_code] 3 whatever the exit code; its [status] still
    follows the exit code alone. *)
Theorem not_found_error_code :
  forall (seconds World : Type) (E : env seconds World) (self : Server.t seconds)
         (cmd : value) (st : state seconds World)
         (p : CompletedProcess) (w : World),
    subprocess_run E cmd (cmd_timeout self) (world st) = (Ok p, w) ->
    contains not_found (stderr p) = true ->
    exists r st',
      execute_cmd E self cmd st = (Ok r, st')
      /\ getitem r (lit "error_code") = Ok (VInt 3)
      /\ getitem r (lit "status") = Ok (VBool (returncode p =? 0)%Z).
Proof.
  intros seconds World E self cmd st p w H Hc.
  do 2 eexists. rewrite execute_cmd_eq, H.
  split; [reflexivity|]. split; [|reflexivity].
  rewrite Hc. reflexivity.
Qed.

Lemma not_found_error_code_witness :
  exists r st',
    execute_cmd (Script.server_env (Ok [])) Script.server (VStr (lit "nope"))
                (Script.start [Script.exited 127%Z EmptyString "sh: 1: nope: not found"])
    = (Ok r, st')
    /\ getitem r (lit "error_code") = Ok (VInt 3)
    /\ getitem r (lit "status") = Ok (VBool false).
Proof.
  exact (not_found_error_code N _ (Script.server_env (Ok [])) Script.server
           (VStr (lit "nope"))
           (Script.start [Script.exited 127%Z EmptyString "sh: 1: nope: not found"])
           (Completed 127 (lit EmptyString) (lit "sh: 1: nope: not found")) []
           eq_refl eq_refl).
Defined.

(** C1, as stated, fails: when the second of three commands times out the
    response is the single error object, with no result for the first
    command, and the third command is never run. *)
Lemma timeout_aborts_batch :
  (let (r, st) :=
     request_parser_value (Script.server_env (Ok [])) Script.server
       Script.three_commands
       (Script.start [Script.exited 0%Z "success" EmptyString; Raise TimeoutExpired;
                      Script.exited 0%Z "another" EmptyString]) in
   (r, trace st))
  = (Ok (error_response 4),
     [ERun (VStr (lit "echo success")) 5%N; ERun (VStr (lit "sleep 60")) 5%N]).
Proof. vm_compute. reflexivity. Qed.

(** C1, amended.  When the execution of a command raises, the dispatcher
    aborts the batch: the response is the single error object, with
    [error_code] 4 for a timeout and for every exception other than the two
    the earlier clauses name. *)
Theorem raising_command_aborts_batch :
  forall (seconds World : Type) (E : env seconds World) (self : Server.t seconds)
         (data : bytes) (st : state seconds World)
         (request : value) (cmds : list value) (e : exn) (w : World),
    loads data = Ok request ->
    getitem request (lit "commands") = Ok (VList cmds) ->
    forallb is_command cmds = true ->
    executions E self (map method_of cmds) (world st) = (Raise e, w) ->
    e <> JSONDecodeError -> e <> KeyError ->
    exists st',
      request_parser E self data st = (Ok (dumps (error_response 4)), st')
      /\ world st' = w.
Proof.
  intros seconds World E self data st request cmds e w Hl Hg Hc Hx H1 H2.
  destruct (for_cmd_raises _ _ E self cmds Hc [] st e w Hx) as [tr Hf].
  exists (State w tr). split; [|reflexivity].
  rewrite request_parser_eq, request_parser_value_eq, request_parser_try_eq.
  rewrite Hl, Hg. cbn [iter]. rewrite Hf.
  destruct e; try reflexivity; congruence.
Qed.

Lemma raising_command_aborts_batch_witness :
  exists st',
    request_parser (Script.server_env (Ok [])) Script.server
      Script.three_commands
      (Script.start [Script.exited 0%Z "success" EmptyString; Raise TimeoutExpired;
                     Script.exited 0%Z "another" EmptyString])
    = (Ok (dumps (error_response 4)), st')
    /\ world st' = [Script.exited 0%Z "another" EmptyString].
Proof.
  refine (raising_command_aborts_batch N _ (Script.server_env (Ok []))
            Script.server Script.three_commands
            (Script.start [Script.exited 0%Z "success" EmptyString; Raise TimeoutExpired;
                           Script.exited 0%Z "another" EmptyString])
            _ _ TimeoutExpired _ _ _ _ _ _ _).
  - vm_compute; reflexivity.
  - vm_compute; reflexivity.
  - vm_compute; reflexivity.
  - vm_compute; reflexivity.
  - discriminate.
  - discriminate.
Defined.

(** C6.  Whatever bytes it is given, [request_parser] returns the text of a
    response and raises nothing; and when its [try] block raises an
    exception other than the two the earlier clauses name, that response
    is the error object with [error_code] 4. *)
Theorem request_parser_never_raises :
  forall (seconds World : Type) (E : env seconds World) (self : Server.t seconds)
         (data : bytes) (st : state seconds World),
    exists v st',
      request_parser E self data st = (Ok (dumps v), st')
      /\ (forall e st1,
            request_parser_try E self data st = (Raise e, st1) ->
            e <> JSONDecodeError -> e <> KeyError ->
            v = error_response 4 /\ st' = st1).
Proof.
  intros seconds World E self data st.
  rewrite request_parser_eq, request_parser_value_eq.
  destruct (request_parser_try E self data st) as [[v|e] st1].
  - exists v, st1. split; [reflexivity|]. intros e st2 H. discriminate.
  - exists (error_response (error_code_of e)), st1. split; [reflexivity|].
    intros e' st2 H H1 H2. injection H as <- <-.
    split; [|reflexivity]. destruct e; try reflexivity; congruence.
Qed.

Lemma request_parser_never_raises_witness :
  exists v st',
    request_parser (Script.server_env (Ok [])) Script.server [xff]
                   (Script.start [])
    = (Ok (dumps v), st')
    /\ v = error_response 4.
Proof.
  destruct (request_parser_never_raises N _ (Script.server_env (Ok []))
              Script.server [xff] (Script.start []))
    as (v & st' & H1 & H2).
  exists v, st'. split; [exact H1|].
  apply (H2 UnicodeDecodeError (Script.start [])).
  - vm_compute; reflexivity.
  - discriminate.
  - discriminate.
Defined.
End DispatcherProperties.


Module ErrorCodes.
Import Text Json Eff Server Batch.
Import ServerFacts DispatcherFacts ResponseOrder.

Section MissingKey.
Variables seconds World : Type.
Variable E : env seconds World.
Variable self : Server.t seconds.

End MissingKey.



End ErrorCodes.


Module HandlerFacts.
Import Text Json Eff Server Batch Trace Handler.
Import ServerFacts DispatcherFacts.

Lemma count_app {A : Type} (kind : A -> bool) (l1 l2 : list A) :
  count kind (l1 ++ l2) = count kind l1 + count kind l2.
Proof. unfold count. rewrite filter_app, length_app. reflexivity. Qed.

Lemma count_runs {seconds : Type} (kind : event seconds -> bool)
      (runs : list (event seconds)) :
  (forall e, is_run e = true -> kind e = false) ->
  forallb is_run runs = true -> count kind runs = 0.
Proof.
  intros Hk. induction runs as [|e runs IH]; intros H; [reflexivity|].
  simpl in H. apply andb_true_iff in H as [He Hr].
  unfold count in *. simpl. rewrite (Hk e He). apply IH, Hr.
Qed.

Section Handler.
Variables seconds World : Type.
Variable E : env seconds World.
Variable self : Server.t seconds.

(** The loop asks nothing of the world but to run commands. *)
Lemma for_cmd_trace (data : list value) :
  forall (acc : list value) (st : state seconds World),
  exists runs,
    trace (snd (for_cmd E self data acc st)) = trace st ++ runs
    /\ forallb is_run runs = true.
Proof.
  induction data as [|cmd data IH]; intros acc st.
  - exists []. simpl. rewrite app_nil_r. auto.
  - cbn [for_cmd]. unfold bind at 1. unfold lift at 1.
    destruct (getitem cmd (lit "method")) as [m|e];
      [|exists []; simpl; rewrite app_nil_r; auto].
    unfold bind at 1. rewrite execute_cmd_eq.
    destruct (subprocess_run E m (cmd_timeout self) (world st)) as [[p|e] w].
    + unfold bind at 1. unfold lift at 1.
      destruct (getitem cmd (lit "id")) as [i|e];
        [|exists [ERun m (cmd_timeout self)]; simpl; auto].
      unfold bind at 1. unfold lift at 1.
      destruct (update_last _ (lit "id") i) as [resp|e];
        [|exists [ERun m (cmd_timeout self)]; simpl; auto].
      destruct (IH resp (State w (trace st ++ [ERun m (cmd_timeout self)])))
        as (runs & Ht & Hr).
      exists (ERun m (cmd_timeout self) :: runs). rewrite Ht. simpl.
      rewrite <- app_assoc. auto.
    + exists [ERun m (cmd_timeout self)]. simpl. auto.
Qed.

Lemma request_parser_trace (data : bytes) (st : state seconds World) :
  exists runs,
    trace (snd (request_parser E self data st)) = trace st ++ runs
    /\ forallb is_run runs = true.
Proof.
  rewrite request_parser_eq, request_parser_value_eq, request_parser_try_eq.
  destruct (loads data) as [request|e];
    [|exists []; simpl; rewrite app_nil_r; auto].
  destruct (getitem request (lit "commands")) as [c|e];
    [|exists []; simpl; rewrite app_nil_r; auto].
  destruct (iter c) as [items|e];
    [|exists []; simpl; rewrite app_nil_r; auto].
  destruct (for_cmd_trace items [] st) as (runs & Ht & Hr).
  exists runs. destruct (for_cmd E self items [] st) as [[r|e] st']; simpl in *; auto.
Qed.

Lemma request_parser_ok (data : bytes) (st : state seconds World) :
  exists v st', request_parser E self data st = (Ok (dumps v), st').
Proof.
  rewrite request_parser_eq, request_parser_value_eq.
  destruct (request_parser_try E self data st) as [[v|e] st1]; eauto.
Qed.

Lemma handle_client_eq (conn : socket) (addr : address) (st : state seconds World) :
  handle_client E self conn addr st =
  let tr0 := (trace st ++ [EPrint (MConnected addr)])
             ++ [ESetTimeout conn (conn_timeout self)] in
  match conn_recv E conn 1024 (world st) with
  | (Raise e, w) =>
    closing E conn (State w ((tr0 ++ [ERecv conn 1024])
                           ++ [EPrint (handler_message addr e)]))
  | (Ok [], w) =>
    closing E conn (State w ((tr0 ++ [ERecv conn 1024]) ++ [EPrint (MEmpty addr)]))
  | (Ok (b :: data), w) =>
    match Codec.decode (b :: data) with
    | Raise e =>
      closing E conn (State w ((tr0 ++ [ERecv conn 1024])
                             ++ [EPrint (handler_message addr e)]))
    | Ok text =>
      match request_parser E self (b :: data)
              (State w ((tr0 ++ [ERecv conn 1024]) ++ [EPrint (MReceived text)]))
      with
      | (Raise e, st2) =>
        closing E conn (State (world st2)
                            (trace st2 ++ [EPrint (handler_message addr e)]))
      | (Ok result, st2) =>
        match Codec.encode result with
        | Raise e =>
          closing E conn (State (world st2)
                              (trace st2 ++ [EPrint (handler_message addr e)]))
        | Ok payload =>
          match conn_sendall E conn payload (world st2) with
          | (Ok _, w3) =>
            closing E conn (State w3 (trace st2 ++ [ESendall conn payload]))
          | (Raise e, w3) =>
            closing E conn (State w3 ((trace st2 ++ [ESendall conn payload])
                                    ++ [EPrint (handler_message addr e)]))
          end
        end
      end
    end
  end.
Proof.
  unfold handle_client, try_finally, try_except, closing, handler_message.
  unfold bind at 1. unfold emit at 1. cbn [world trace].
  unfold bind at 1. unfold emit at 1. cbn [world trace].
  unfold bind at 1. unfold call at 1. cbn [world trace].
  destruct (conn_recv E conn 1024 (world st)) as [[[|b data]|e] w].
  - unfold emit, call. cbn [world trace].
    destruct (conn_close E conn w) as [[u|e] w']; reflexivity.
  - unfold bind at 1. unfold lift at 1.
    destruct (Codec.decode (b :: data)) as [text|e].
    + unfold bind at 1. unfold emit at 1. cbn [world trace].
      unfold bind at 1.
      destruct (request_parser E self (b :: data) _) as [[r|e] st2].
      * unfold bind at 1. unfold lift at 1.
        destruct (Codec.encode r) as [payload|e].
        -- unfold call at 1.
           destruct (conn_sendall E conn payload (world st2)) as [[u|e] w3].
           ++ unfold call. cbn [world trace].
              destruct (conn_close E conn w3) as [[u'|e] w']; destruct u; reflexivity.
           ++ destruct e; unfold emit, call; cbn [world trace];
                destruct (conn_close E conn w3) as [[u'|e'] w']; reflexivity.
        -- destruct e; unfold emit, call; cbn [world trace];
             destruct (conn_close E conn (world st2)) as [[u'|e'] w']; reflexivity.
      * destruct e; unfold emit, call; cbn [world trace];
          destruct (conn_close E conn (world st2)) as [[u'|e'] w']; reflexivity.
    + destruct e; unfold emit, call; cbn [world trace];
        destruct (conn_close E conn w) as [[u'|e'] w']; reflexivity.
  - destruct e; unfold emit, call; cbn [world trace];
      destruct (conn_close E conn w) as [[u'|e'] w']; reflexivity.
Qed.

Lemma closing_trace (conn : socket) (st : state seconds World) :
  trace (snd (closing E conn st)) = trace st ++ [EClose conn].
Proof.
  unfold closing. destruct (conn_close E conn (world st)) as [[u|e] w]; reflexivity.
Qed.
End Handler.
End HandlerFacts.


Module HandlerProperties.
Import Text Json Eff Server Batch Trace Handler.
Import ServerFacts DispatcherFacts HandlerFacts.

Section Handler.
Variables seconds World : Type.
Variable E : env seconds World.
Variable self : Server.t seconds.

(** What holds of every run of [handle_client]: one read, at most one
    write, the connection closed last; nothing written when the read yields
    no bytes or raises. *)
Lemma handle_client_trace (conn : socket) (addr : address)
      (st : state seconds World) :
  exists tr,
    trace (snd (handle_client E self conn addr st))
    = trace st ++ tr ++ [EClose conn]
    /\ count is_recv tr = 1
    /\ count is_sendall tr <= 1
    /\ count is_close tr = 0
    /\ ((exists w, conn_recv E conn 1024 (world st) = (Ok [], w))
        \/ (exists e w, conn_recv E conn 1024 (world st) = (Raise e, w)) ->
        count is_sendall tr = 0).
Proof.
  rewrite handle_client_eq. cbv zeta.
  destruct (conn_recv E conn 1024 (world st)) as [[[|b data]|e] w].
  - rewrite closing_trace. cbn [trace].
    exists [EPrint (MConnected addr); ESetTimeout conn (conn_timeout self);
            ERecv conn 1024; EPrint (MEmpty addr)].
    rewrite <- !app_assoc. repeat split; auto.
  - destruct (Codec.decode (b :: data)) as [text|e].
    + destruct (request_parser_trace _ _ E self (b :: data)
                  (State w ((((trace st ++ [EPrint (MConnected addr)])
                              ++ [ESetTimeout conn (conn_timeout self)])
                             ++ [ERecv conn 1024]) ++ [EPrint (MReceived text)])))
        as (runs & Ht & Hr).
      assert (R1 : count (@is_recv seconds) runs = 0)
        by (apply count_runs; [intros [] ?; try discriminate; reflexivity | exact Hr]).
      assert (R2 : count (@is_sendall seconds) runs = 0)
        by (apply count_runs; [intros [] ?; try discriminate; reflexivity | exact Hr]).
      assert (R3 : count (@is_close seconds) runs = 0)
        by (apply count_runs; [intros [] ?; try discriminate; reflexivity | exact Hr]).
      destruct (request_parser E self (b :: data) _) as [[r|e] st2];
        cbn [snd trace] in Ht.
      * destruct (Codec.encode r) as [payload|e].
        -- destruct (conn_sendall E conn payload (world st2)) as [[u|e] w3];
             rewrite closing_trace; cbn [trace]; rewrite Ht.
           ++ exists ([EPrint (MConnected addr);
                       ESetTimeout conn (conn_timeout self);
                       ERecv conn 1024; EPrint (MReceived text)]
                      ++ runs ++ [ESendall conn payload]).
              rewrite <- !app_assoc. split; [reflexivity|].
              rewrite !count_app, ?R1, ?R2, ?R3.
              repeat split; try reflexivity; try (cbn; lia).
              intros [[w' H] | (e' & w' & H)]; discriminate.
           ++ exists ([EPrint (MConnected addr);
                       ESetTimeout conn (conn_timeout self);
                       ERecv conn 1024; EPrint (MReceived text)]
                      ++ runs ++ [ESendall conn payload;
                                  EPrint (handler_message addr e)]).
              rewrite <- !app_assoc. split; [reflexivity|].
              rewrite !count_app, ?R1, ?R2, ?R3.
              repeat split; try reflexivity; try (cbn; lia).
              intros [[w' H] | (e' & w' & H)]; discriminate.
        -- rewrite closing_trace; cbn [trace]; rewrite Ht.
           exists ([EPrint (MConnected addr);
                    ESetTimeout conn (conn_timeout self);
                    ERecv conn 1024; EPrint (MReceived text)]
                   ++ runs ++ [EPrint (handler_message addr e)]).
           rewrite <- !app_assoc. split; [reflexivity|].
           rewrite !count_app, ?R1, ?R2, ?R3.
           repeat split; try reflexivity; try (cbn; lia).
      * rewrite closing_trace; cbn [trace]; rewrite Ht.
        exists ([EPrint (MConnected addr);
                 ESetTimeout conn (conn_timeout self);
                 ERecv conn 1024; EPrint (MReceived text)]
                ++ runs ++ [EPrint (handler_message addr e)]).
        rewrite <- !app_assoc. split; [reflexivity|].
        rewrite !count_app, ?R1, ?R2, ?R3.
        repeat split; try reflexivity; try (cbn; lia).
    + rewrite closing_trace. cbn [trace].
      exists [EPrint (MConnected addr); ESetTimeout conn (conn_timeout self);
              ERecv conn 1024; EPrint (handler_message addr e)].
      rewrite <- !app_assoc. repeat split; auto.
  - rewrite closing_trace. cbn [trace].
    exists [EPrint (MConnected addr); ESetTimeout conn (conn_timeout self);
            ERecv conn 1024; EPrint (handler_message addr e)].
    rewrite <- !app_assoc. repeat split; auto.
Qed.

(** Bytes that are not UTF-8 never reach the dispatcher: the [print] that
    decodes them raises, and the connection is closed with nothing
    written. *)
Lemma handle_client_undecodable (conn : socket) (addr : address)
      (st : state seconds World) (b : byte) (data : bytes) (w : World)
      (e : exn) :
  conn_recv E conn 1024 (world st) = (Ok (b :: data), w) ->
  Codec.decode (b :: data) = Raise e ->
  trace (snd (handle_client E self conn addr st))
  = trace st ++ [EPrint (MConnected addr);
                 ESetTimeout conn (conn_timeout self);
                 ERecv conn 1024;
                 EPrint (handler_message addr e);
                 EClose conn].
Proof.
  intros Hr Hd. rewrite handle_client_eq. cbv zeta. rewrite Hr, Hd.
  rewrite closing_trace. cbn [trace]. rewrite <- !app_assoc. reflexivity.
Qed.
End Handler.

(** C9 at the input where the code departs from it: the peer sends the one
    octet 0xFF.  The read is not empty, yet no response is written; given
    the same octet, the dispatcher itself answers with [error_code] 4. *)
Theorem undecodable_request_gets_no_response :
  handle_client (Script.server_env (Ok [xff])) Script.server 4%N
                (lit "10.0.0.7", 50000%N) (Script.start [])
  = (Ok tt,
     State []
           [EPrint (MConnected (lit "10.0.0.7", 50000%N));
            ESetTimeout 4%N 10%N;
            ERecv 4%N 1024%N;
            EPrint (MError (lit "10.0.0.7", 50000%N) UnicodeDecodeError);
            EClose 4%N])
  /\ fst (request_parser (Script.server_env (Ok [xff])) Script.server [xff]
                         (Script.start []))
     = Ok (dumps (error_response 4)).
Proof. split; vm_compute; reflexivity. Qed.
End HandlerProperties.


Module UuidFacts.
Import Text Json Client.
Local Open Scope N_scope.

Lemma log2_lt_of_lt_pow2 (a n : N) : 0 < n -> a < 2 ^ n -> N.log2 a < n.
Proof.
  intros Hn Ha. destruct (N.eq_dec a 0) as [->|Hz]; [exact Hn|].
  apply N.log2_lt_pow2; [lia | exact Ha].
Qed.

Lemma lor_lt_pow2 (a b n : N) : 0 < n -> a < 2 ^ n -> b < 2 ^ n -> N.lor a b < 2 ^ n.
Proof.
  intros Hn Ha Hb. destruct (N.eq_dec (N.lor a b) 0) as [->|Hz].
  - apply N.neq_0_lt_0, N.pow_nonzero. discriminate.
  - apply N.log2_lt_pow2; [lia|]. rewrite N.log2_lor.
    apply N.max_lub_lt; apply log2_lt_of_lt_pow2; assumption.
Qed.

(** A version-4 UUID is a 128-bit integer. *)
Lemma uuid4_int_bound (r : N) : uuid4_int r < 2 ^ 128.
Proof.
  unfold uuid4_int.
  assert (H0 : r mod 2 ^ 128 < 2 ^ 128) by (apply N.mod_lt; discriminate).
  apply lor_lt_pow2; [reflexivity | | reflexivity].
  eapply N.le_lt_trans; [apply N.ldiff_le_l|].
  apply lor_lt_pow2; [reflexivity | | reflexivity].
  eapply N.le_lt_trans; [apply N.ldiff_le_l | exact H0].
Qed.

Lemma hex_digit_inj (a b : N) :
  a < 16 -> b < 16 -> hex_digit a = hex_digit b -> a = b.
Proof.
  unfold hex_digit. intros Ha Hb.
  destruct (N.ltb_spec a 10), (N.ltb_spec b 10); lia.
Qed.

Lemma hex_chars_length (n : nat) (x : N) : length (hex_chars n x) = n.
Proof.
  revert x. induction n as [|n IH]; intros x; simpl; [reflexivity|].
  rewrite length_app, IH. simpl. lia.
Qed.

Lemma hex_chars_inj (n : nat) :
  forall x y, hex_chars n x = hex_chars n y ->
              x mod 16 ^ N.of_nat n = y mod 16 ^ N.of_nat n.
Proof.
  induction n as [|n IH]; intros x y H.
  - simpl. rewrite !N.mod_1_r. reflexivity.
  - simpl in H. apply app_inj_tail in H as [H1 H2].
    apply IH in H1.
    apply hex_digit_inj in H2; try (apply N.mod_lt; discriminate).
    rewrite Nat2N.inj_succ, N.pow_succ_r'.
    rewrite !N.Div0.mod_mul_r, H1, H2. reflexivity.
Qed.

Lemma list_32 {A : Type} (l : list A) :
  length l = 32%nat ->
  exists a1 a2 a3 a4 a5 a6 a7 a8 b1 b2 b3 b4 c1 c2 c3 c4 d1 d2 d3 d4
         e1 e2 e3 e4 e5 e6 e7 e8 e9 e10 e11 e12,
    l = [a1; a2; a3; a4; a5; a6; a7; a8; b1; b2; b3; b4; c1; c2; c3; c4;
         d1; d2; d3; d4; e1; e2; e3; e4; e5; e6; e7; e8; e9; e10; e11; e12].
Proof.
  intros H.
  do 32 (destruct l as [|? l]; [discriminate H|]).
  destruct l; [|discriminate H].
  repeat eexists.
Qed.

Lemma undash_uuid_str (u : N) : undash (uuid_str u) = hex_chars 32 u.
Proof.
  unfold uuid_str.
  destruct (list_32 (hex_chars 32 u) (hex_chars_length 32 u))
    as (a1 & a2 & a3 & a4 & a5 & a6 & a7 & a8 & b1 & b2 & b3 & b4 & c1 & c2
        & c3 & c4 & d1 & d2 & d3 & d4 & e1 & e2 & e3 & e4 & e5 & e6 & e7 & e8
        & e9 & e10 & e11 & e12 & ->).
  reflexivity.
Qed.

(** Two 128-bit integers with the same text are the same. *)
Lemma uuid_str_inj (u v : N) :
  u < 2 ^ 128 -> v < 2 ^ 128 -> uuid_str u = uuid_str v -> u = v.
Proof.
  intros Hu Hv H. apply (f_equal undash) in H.
  rewrite !undash_uuid_str in H. apply hex_chars_inj in H.
  change (16 ^ N.of_nat 32) with (2 ^ 128) in H.
  rewrite !N.mod_small in H by assumption. exact H.
Qed.

Lemma uuid_str_uuid4_inj (r r' : N) :
  uuid_str (uuid4_int r) = uuid_str (uuid4_int r') -> uuid4_int r = uuid4_int r'.
Proof. apply uuid_str_inj; apply uuid4_int_bound. Qed.
End UuidFacts.


Module ClientFacts.
Import Text Json Eff Client Trace.
Import UuidFacts HandlerFacts.

Section Builder.
Variables seconds World : Type.
Variable E : env World.

Lemma uuid4_eq (st : state seconds World) :
  uuid4 E st =
  (Ok (uuid4_int (fst (os_urandom E 16 (world st)))),
   State (snd (os_urandom E 16 (world st))) (trace st ++ [EUrandom 16])).
Proof.
  unfold uuid4, bind, call, ret.
  destruct (os_urandom E 16 (world st)) as [r w]. reflexivity.
Qed.



(** The loop draws one UUID for each string, in order. *)
Lemma for_cmd_eq (data : list str) :
  forall (commands : list value) (st : state seconds World),
    for_cmd E data commands st =
    (Ok (commands ++ commands_of (fst (uuids E (length data) (world st))) data),
     State (snd (uuids E (length data) (world st)))
           (trace st ++ repeat (EUrandom 16) (length data))).
Proof.
  induction data as [|cmd data IH]; intros commands st.
  - simpl. unfold ret. rewrite !app_nil_r. destruct st; reflexivity.
  - cbn [for_cmd length uuids]. unfold bind. rewrite uuid4_eq.
    destruct (os_urandom E 16 (world st)) as [r w1]. cbn [fst snd].
    rewrite IH. cbn [world trace].
    destruct (uuids E (length data) w1) as [us w2]. cbn [fst snd].
    unfold commands_of. cbn [combine map fst snd repeat].
    rewrite <- !app_assoc. reflexivity.
Qed.

Lemma generate_request_eq (file_path : option str) (st : state seconds World) :
  generate_request E file_path st =
  match get_cmd E file_path st with
  | (Ok (Sourced data), st1) =>
    (Ok (true,
         dumps (request_of
                  (commands_of (fst (uuids E (length data) (world st1))) data))),
     State (snd (uuids E (length data) (world st1)))
           (trace st1 ++ repeat (EUrandom 16) (length data)))
  | (Ok (NotSourced message), st1) => (Ok (false, message), st1)
  | (Raise e, st1) => (Raise e, st1)
  end.
Proof.
  unfold generate_request. unfold bind at 1.
  destruct (get_cmd E file_path st) as [[[data|message]|e] st1]; try reflexivity.
  unfold bind, ret. rewrite for_cmd_eq. reflexivity.
Qed.

Lemma get_cmd_eq (file_path : option str) (st : state seconds World) :
  get_cmd E file_path st =
  let ask (st1 : state seconds World) :=
    match input E prompt (world st1) with
    | (Ok line, w) => (Ok (Sourced [line]), State w (trace st1 ++ [EInput prompt]))
    | (Raise e, w) => (Raise e, State w (trace st1 ++ [EInput prompt]))
    end in
  match file_path with
  | None => ask st
  | Some path =>
    let st1 := State (snd (open_readlines E path (world st)))
                     (trace st ++ [EOpen path]) in
    match fst (open_readlines E path (world st)) with
    | Ok [] => ask st1
    | Ok (l :: lines) => (Ok (Sourced (map strip (l :: lines))), st1)
    | Raise FileNotFoundError => (Ok (NotSourced unable_to_locate), st1)
    | Raise TypeError => ask st1
    | Raise e => (Raise e, st1)
    end
  end.
Proof.
  unfold get_cmd, try_except. cbv zeta. destruct file_path as [path|].
  - unfold bind at 1. unfold call at 1.
    destruct (open_readlines E path (world st)) as [[[|l lines]|e] w];
      cbn [fst snd].
    + unfold raise, bind, call. cbn [world trace].
      destruct (input E prompt w) as [[line|e] w']; reflexivity.
    + reflexivity.
    + destruct e; try reflexivity.
      unfold bind, call. cbn [world trace].
      destruct (input E prompt w) as [[line|e] w']; reflexivity.
  - unfold bind at 1. unfold raise at 1. unfold bind, call.
    destruct (input E prompt (world st)) as [[line|e] w']; reflexivity.
Qed.
End Builder.



End ClientFacts.


Module ClientProperties.
Import Text Json Eff Client Trace.
Import UuidFacts HandlerFacts ClientFacts.




End ClientProperties.


(** Linear arithmetic with division and remainder by constants. *)
Ltac divlia := zify; Z.to_euclidean_division_equations; lia.

Module JsonText.
Import Text Json.
Local Open Scope N_scope.

(** *** Hexadecimal digits *)


Lemma hex_digit_range (d : N) : d < 16 -> 48 <= hex_digit d <= 102.
Proof. unfold hex_digit. intros H. destruct (N.ltb_spec d 10); lia. Qed.


(** *** Strings *)


Lemma scanstring_short (e x : char) (tail acc : str) :
  e <> 117 -> backslash e = Some x ->
  scanstring (92 :: e :: tail) acc = scanstring tail (x :: acc).
Proof.
  intros H1 H2. cbn [scanstring]. change (92 =? 34) with false.
  change (92 =? 92) with true. cbv iota.
  destruct (N.eqb_spec e 117); [contradiction|]. rewrite H2. reflexivity.
Qed.






End JsonText.


Module JsonNumber.
Import Text Json.
Local Open Scope N_scope.



Lemma uint_chars_digits (d : Decimal.uint) :
  forallb is_digit (uint_chars d) = true.
Proof. induction d; cbn [uint_chars forallb]; try rewrite IHd; reflexivity. Qed.









End JsonNumber.


Module JsonValue.
Import Text Json.
Import TextFacts JsonText JsonNumber.
Local Open Scope N_scope.

(** Induction on values, with the hypothesis for every element of a list
    and every value of a dict. *)
Lemma value_ind (P : value -> Prop)
      (HNone : P VNone)
      (HBool : forall b, P (VBool b))
      (HInt : forall z, P (VInt z))
      (HFloat : forall f, P (VFloat f))
      (HStr : forall s, P (VStr s))
      (HList : forall l, Forall P l -> P (VList l))
      (HDict : forall d, Forall (fun kv => P (snd kv)) d -> P (VDict d)) :
  forall v, P v.
Proof.
  fix IH 1. intros [| b | z | f | s | l | d].
  - exact HNone.
  - apply HBool.
  - apply HInt.
  - apply HFloat.
  - apply HStr.
  - apply HList. induction l as [|x l IHl]; constructor; [apply IH | exact IHl].
  - apply HDict. induction d as [|kv d IHd]; constructor; [apply IH | exact IHd].
Qed.

(** *** One step of the scanner *)




Lemma parse_array_eq (f : nat) (s : str) (acc : list value) :
  parse_array (S f) s acc =
  match scan_once f s with
  | POk v r =>
    match skip_ws r with
    | c :: r1 =>
      if c =? 93 then POk (VList (rev (v :: acc))) r1
      else if c =? 44 then parse_array f (skip_ws r1) (v :: acc)
      else PErr
    | [] => PErr
    end
  | PErr => PErr
  | PFuel => PFuel
  end.
Proof. reflexivity. Qed.


Lemma is_digit_inv (c : char) : is_digit c = true -> 48 <= c <= 57.
Proof.
  unfold is_digit. rewrite andb_true_iff, !N.leb_le. tauto.
Qed.



Lemma skip_ws_head (c : char) (r : str) :
  is_ws c = false -> skip_ws (c :: r) = c :: r.
Proof. intros H. cbn [skip_ws]. rewrite H. reflexivity. Qed.

(** *** The first character of a printed value *)

Lemma starts_value_not_ws (c : char) : starts_value c -> is_ws c = false.
Proof.
  unfold starts_value. intros H.
  assert (c = 110 \/ c = 116 \/ c = 102 \/ c = 34 \/ c = 91 \/ c = 123
          \/ c = 45 \/ 48 <= c <= 57) as H'
      by (intuition auto using is_digit_inv).
  unfold is_ws.
  destruct (N.eqb_spec c 32); [exfalso; lia|].
  destruct (N.eqb_spec c 9); [exfalso; lia|].
  destruct (N.eqb_spec c 10); [exfalso; lia|].
  destruct (N.eqb_spec c 13); [exfalso; lia|]. reflexivity.
Qed.


End JsonValue.


Module JsonRoundTrip.
Import Text Json.
Import TextFacts JsonText JsonNumber JsonValue.
Local Open Scope N_scope.

(** *** Keys *)





(** *** Lengths *)

Lemma skip_ws_value (s : str) (c : char) (tail : str) :
  s = c :: tail -> starts_value c -> skip_ws s = s.
Proof.
  intros -> H. apply skip_ws_head, starts_value_not_ws, H.
Qed.






Lemma join_cons (sep p q : str) (rest : list str) :
  join sep (p :: q :: rest) = p ++ sep ++ join sep (q :: rest).
Proof. reflexivity. Qed.




Lemma starts_value_quote : starts_value 34.
Proof. unfold starts_value. tauto. Qed.




End JsonRoundTrip.


Module JsonWire.
Import Text Json.
Import TextFacts JsonText JsonNumber JsonValue JsonRoundTrip.
Local Open Scope N_scope.

(** *** What [dumps] prints is ASCII *)

Lemma hex4_chars_ascii (n : N) :
  n < 65536 -> Forall (fun c => 0 < c < 128) (hex4_chars n).
Proof.
  intros H. unfold hex4_chars.
  assert (H1 : n / 4096 < 16) by divlia.
  assert (H2 : (n / 256) mod 16 < 16) by divlia.
  assert (H3 : (n / 16) mod 16 < 16) by divlia.
  assert (H4 : n mod 16 < 16) by divlia.
  pose proof (hex_digit_range _ H1). pose proof (hex_digit_range _ H2).
  pose proof (hex_digit_range _ H3). pose proof (hex_digit_range _ H4).
  repeat constructor; lia.
Qed.



Lemma int_repr_ascii (z : Z) : Forall (fun c => 0 < c < 128) (int_repr z).
Proof.
  unfold int_repr. apply Forall_app. split.
  - destruct (z <? 0)%Z; repeat constructor; lia.
  - pose proof (uint_chars_digits (N.to_uint (Z.abs_N z))) as H.
    rewrite forallb_forall in H. apply Forall_forall. intros c Hc.
    specialize (H c Hc). apply is_digit_inv in H. lia.
Qed.

Lemma join_ascii (sep : str) (parts : list str) :
  Forall (fun c => 0 < c < 128) sep ->
  Forall (Forall (fun c => 0 < c < 128)) parts ->
  Forall (fun c => 0 < c < 128) (join sep parts).
Proof.
  intros Hs H. induction H as [|p parts Hp Hps IH]; [constructor|].
  destruct parts as [|q parts]; [exact Hp|].
  rewrite join_cons. apply Forall_app. split; [exact Hp|].
  apply Forall_app. split; [exact Hs | exact IH].
Qed.


(** *** ASCII text on the wire *)

Lemma to_N_byte_of_N (c : N) : c < 256 -> Byte.to_N (byte_of_N c) = c.
Proof.
  intros H. unfold byte_of_N. destruct (Byte.of_N c) as [b|] eqn:E.
  - apply Byte.to_of_N, E.
  - apply Byte.of_N_None_iff in E. lia.
Qed.

Lemma map_to_N_byte_of_N (l : list N) :
  Forall (fun c => 0 < c < 128) l -> map Byte.to_N (map byte_of_N l) = l.
Proof.
  induction 1 as [|c l Hc Hl IH]; [reflexivity|].
  cbn [map]. rewrite IH, to_N_byte_of_N by lia. reflexivity.
Qed.

Lemma utf8_decode_ascii (surrogatepass : bool) (l : list N) :
  Forall (fun c => 0 < c < 128) l -> Codec.utf8_decode surrogatepass l = Some l.
Proof.
  induction 1 as [|c l Hc Hl IH]; [reflexivity|].
  cbn [Codec.utf8_decode]. destruct (N.ltb_spec c 128); [|lia].
  rewrite IH. reflexivity.
Qed.

Lemma utf8_encode_ascii (l : list N) :
  Forall (fun c => 0 < c < 128) l -> Codec.utf8_encode l = Some l.
Proof.
  induction 1 as [|c l Hc Hl IH]; [reflexivity|].
  cbn [Codec.utf8_encode]. unfold Codec.utf8_encode_char.
  destruct (N.ltb_spec c 128); [|lia]. rewrite IH. reflexivity.
Qed.




End JsonWire.


Module WireFacts.
Import Text Json Eff Batch.
Import TextFacts DispatcherFacts ClientFacts JsonText JsonWire.
Local Open Scope N_scope.

(** *** The values the two programs print are plain *)











End WireFacts.

Module WireProperties.
Import Text Json Eff Batch.
Import TextFacts DispatcherFacts ClientFacts JsonWire WireFacts.


End WireProperties.


Module AsciiFacts.
Import Text Json Plainness.
Import TextFacts JsonText JsonNumber JsonValue JsonRoundTrip JsonWire.
Local Open Scope N_scope.

Lemma is_ascii_inv (c : char) : is_ascii c = true -> 0 < c < 128.
Proof.
  unfold is_ascii. rewrite andb_true_iff, !N.leb_le. lia.
Qed.

Lemma is_ascii_intro (c : char) : 0 < c < 128 -> is_ascii c = true.
Proof.
  unfold is_ascii. rewrite andb_true_iff, !N.leb_le. lia.
Qed.

Lemma forallb_is_ascii (s : str) :
  forallb is_ascii s = true <-> Forall (fun c => 0 < c < 128) s.
Proof.
  rewrite forallb_forall, Forall_forall.
  split; intros H c Hc; [apply is_ascii_inv | apply is_ascii_intro]; auto.
Qed.

Lemma digits_ascii (s : str) :
  forallb is_digit s = true -> forallb is_ascii s = true.
Proof.
  rewrite !forallb_forall. intros H c Hc. specialize (H c Hc).
  apply is_digit_inv in H. apply is_ascii_intro. lia.
Qed.

(** *** Every string prints as ASCII *)

Lemma escape_char_ascii_any (c : char) :
  Forall (fun c => 0 < c < 128) (escape_char c).
Proof.
  unfold escape_char.
  repeat match goal with
         | |- context [c =? ?k] =>
           destruct (N.eqb_spec c k); [repeat constructor; lia|]
         end.
  destruct ((32 <=? c) && (c <=? 126)) eqn:E.
  - apply andb_true_iff in E as [E1 E2]. apply N.leb_le in E1, E2.
    repeat constructor; lia.
  - destruct (N.ltb_spec c 65536) as [Hlt | Hge].
    + constructor; [lia|]. constructor; [lia|]. apply hex4_chars_ascii, Hlt.
    + cbv zeta. apply Forall_app. split.
      * constructor; [lia|]. constructor; [lia|]. apply hex4_chars_ascii. divlia.
      * constructor; [lia|]. constructor; [lia|]. apply hex4_chars_ascii. divlia.
Qed.

Lemma encode_basestring_ascii_any (s : str) :
  Forall (fun c => 0 < c < 128) (encode_basestring_ascii s).
Proof.
  unfold encode_basestring_ascii. constructor; [lia|].
  apply Forall_app. split; [|repeat constructor; lia].
  apply Forall_flat_map, Forall_forall. intros c _. apply escape_char_ascii_any.
Qed.

Lemma dumps_ascii_floats (v : value) :
  ascii_floats v = true -> Forall (fun c => 0 < c < 128) (dumps v).
Proof.
  induction v as [| b | z | lt | s | l IH | d IH] using value_ind; intros Hp.
  - repeat constructor; lia.
  - destruct b; repeat constructor; lia.
  - apply int_repr_ascii.
  - apply forallb_is_ascii, Hp.
  - apply encode_basestring_ascii_any.
  - cbn [ascii_floats] in Hp. cbn [dumps]. constructor; [lia|].
    apply Forall_app. split; [|repeat constructor; lia].
    apply join_ascii; [repeat constructor; lia|].
    rewrite forallb_forall in Hp. rewrite Forall_forall in IH.
    apply Forall_forall. intros p Hin. apply in_map_iff in Hin as (x & <- & Hx).
    apply (IH x Hx), Hp, Hx.
  - cbn [ascii_floats] in Hp. cbn [dumps].
    constructor; [lia|].
    apply Forall_app. split; [|repeat constructor; lia].
    apply join_ascii; [repeat constructor; lia|].
    rewrite forallb_forall in Hp. rewrite Forall_forall in IH.
    apply Forall_forall. intros p Hin. apply in_map_iff in Hin as (kv & <- & Hkv).
    apply Forall_app. split; [apply encode_basestring_ascii_any|].
    apply Forall_app. split; [repeat constructor; lia|].
    apply (IH kv Hkv), (Hp kv Hkv).
Qed.

(** *** Every number the scanner reads is ASCII *)

Lemma span_digits_fst (s : str) : forallb is_digit (fst (span_digits s)) = true.
Proof.
  induction s as [|c s IH]; [reflexivity|]. cbn [span_digits].
  destruct (is_digit c) eqn:E; [|reflexivity].
  destruct (span_digits s) as [d r]. cbn [fst forallb] in *. rewrite E, IH.
  reflexivity.
Qed.

Lemma match_fraction_ascii (s : str) :
  forallb is_ascii (fst (match_fraction s)) = true.
Proof.
  unfold match_fraction. destruct s as [|c r]; [reflexivity|].
  destruct (N.eqb_spec c 46) as [-> | _]; [|reflexivity].
  pose proof (span_digits_fst r) as H.
  destruct (span_digits r) as [[|d0 d] r']; [reflexivity|].
  cbn [fst] in *. exact (digits_ascii _ H).
Qed.

Lemma match_exponent_ascii (s : str) :
  forallb is_ascii (fst (match_exponent s)) = true.
Proof.
  unfold match_exponent. destruct s as [|e r]; [reflexivity|].
  destruct ((e =? 101) || (e =? 69)) eqn:Ee; [|reflexivity].
  assert (He : is_ascii e = true).
  { apply orb_true_iff in Ee as [Ee | Ee]; apply N.eqb_eq in Ee; subst; reflexivity. }
  destruct r as [|c r'].
  - reflexivity.
  - destruct ((c =? 43) || (c =? 45)) eqn:Ec.
    + assert (Hc : is_ascii c = true).
      { apply orb_true_iff in Ec as [Ec | Ec]; apply N.eqb_eq in Ec; subst;
          reflexivity. }
      pose proof (span_digits_fst r') as H.
      destruct (span_digits r') as [[|d0 d] r2]; [reflexivity|].
      cbn [fst app] in *. cbn [forallb]. rewrite He, Hc.
      apply (digits_ascii _ H).
    + pose proof (span_digits_fst (c :: r')) as H.
      destruct (span_digits (c :: r')) as [[|d0 d] r2]; [reflexivity|].
      cbn [fst app] in *. cbn [forallb]. rewrite He.
      apply (digits_ascii _ H).
Qed.

Lemma match_number_ascii (s : str) (v : value) (r : str) :
  match_number s = POk v r -> ascii_floats v = true.
Proof.
  unfold match_number.
  set (p := match s with
            | [] => (false, s)
            | c :: r0 => if c =? 45 then (true, r0) else (false, s)
            end).
  destruct p as [neg s1]. destruct s1 as [|c r0]; [discriminate|].
  destruct (is_digit c) eqn:Hc; [|discriminate].
  set (q := if c =? 48 then ([c], r0)
            else let (d, r') := span_digits r0 in (c :: d, r')).
  assert (Hq : forallb is_digit (fst q) = true).
  { subst q. destruct (c =? 48).
    - cbn [fst forallb]. rewrite Hc. reflexivity.
    - pose proof (span_digits_fst r0) as H. destruct (span_digits r0) as [d r'].
      cbn [fst forallb] in *. rewrite Hc, H. reflexivity. }
  destruct q as [ip r1]. cbn [fst] in Hq.
  pose proof (match_fraction_ascii r1) as Hf.
  destruct (match_fraction r1) as [fp r2]. cbn [fst] in Hf.
  pose proof (match_exponent_ascii r2) as He.
  destruct (match_exponent r2) as [ep r3]. cbn [fst] in He.
  assert (Hall : forallb is_ascii ((if neg then [45] else []) ++ ip ++ fp ++ ep)
                 = true).
  { rewrite !forallb_app, (digits_ascii _ Hq), Hf, He. destruct neg; reflexivity. }
  destruct fp as [|f0 fp]; [destruct ep as [|e0 ep]|]; intros H;
    injection H as <- _; try reflexivity; exact Hall.
Qed.

Lemma keyword_ascii (kw : str) (v0 : value) (s : str) (v : value) (r : str) :
  ascii_floats v0 = true -> keyword kw v0 s = POk v r -> ascii_floats v = true.
Proof.
  intros H0. unfold keyword. destruct (strip_prefix kw s) as [r0|].
  - intros H. injection H as <- _. exact H0.
  - apply match_number_ascii.
Qed.

Lemma dict_set_ascii (k : str) (v : value) (d : dict) :
  ascii_floats v = true ->
  forallb (fun kv => ascii_floats (snd kv)) d = true ->
  forallb (fun kv => ascii_floats (snd kv)) (dict_set k v d) = true.
Proof.
  intros Hv. induction d as [|[k' v'] d IH]; cbn [dict_set forallb snd].
  - intros _. rewrite Hv. reflexivity.
  - intros H. apply andb_true_iff in H as [H1 H2].
    destruct (str_eqb k k'); cbn [forallb snd].
    + rewrite Hv, H2. reflexivity.
    + rewrite H1, (IH H2). reflexivity.
Qed.

Lemma forallb_rev {A : Type} (p : A -> bool) (l : list A) :
  forallb p l = true -> forallb p (rev l) = true.
Proof.
  rewrite !forallb_forall. intros H x Hx. apply H, in_rev, Hx.
Qed.

(** Take the scrutinee of the match at the head of [H] apart. *)
Ltac split_match H :=
  match type of H with
  | match ?x with _ => _ end = _ => destruct x eqn:?; try discriminate H
  end.

Lemma scan_ascii (f : nat) :
  (forall s v r, scan_once f s = POk v r -> ascii_floats v = true)
  /\ (forall s acc v r,
         parse_array f s acc = POk v r ->
         forallb ascii_floats acc = true -> ascii_floats v = true)
  /\ (forall s acc v r,
         parse_object f s acc = POk v r ->
         forallb (fun kv => ascii_floats (snd kv)) acc = true ->
         ascii_floats v = true).
Proof.
  induction f as [|f (IHs & IHa & IHo)]; [repeat split; intros; discriminate|].
  split; [|split].
  - intros s v r H. cbn [scan_once] in H.
    repeat split_match H;
      try (injection H as <- _; reflexivity);
      try (eapply IHo; [exact H | reflexivity]);
      try (eapply IHa; [exact H | reflexivity]);
      try (eapply keyword_ascii; [|exact H]; reflexivity);
      try (eapply match_number_ascii; exact H).
  - intros s acc v r H Hacc. rewrite parse_array_eq in H.
    destruct (scan_once f s) as [v0 r0| |] eqn:Hs; try discriminate H.
    pose proof (IHs _ _ _ Hs) as Hv0.
    repeat split_match H.
    + injection H as <- _. cbn [ascii_floats].
      apply (forallb_rev ascii_floats (v0 :: acc)).
      cbn [forallb]. rewrite Hv0, Hacc. reflexivity.
    + eapply IHa; [exact H|]. cbn [forallb]. rewrite Hv0, Hacc. reflexivity.
  - intros s acc v r H Hacc. cbn [parse_object] in H.
    destruct s as [|c s]; [discriminate H|].
    destruct (c =? 34); [|discriminate H].
    destruct (scanstring s []) as [k r1| |]; try discriminate H.
    destruct (skip_ws r1) as [|c2 r2]; [discriminate H|].
    destruct (c2 =? 58); [|discriminate H].
    destruct (scan_once f (skip_ws r2)) as [v0 r3| |] eqn:Hs; try discriminate H.
    pose proof (IHs _ _ _ Hs) as Hv0.
    destruct (skip_ws r3) as [|c3 r4]; [discriminate H|].
    destruct (c3 =? 125).
    + injection H as <- _. cbn [ascii_floats]. apply dict_set_ascii; assumption.
    + destruct (c3 =? 44); [|discriminate H].
      eapply IHo; [exact H|]. apply dict_set_ascii; assumption.
Qed.

Lemma decode_ascii (s : str) (v : value) :
  decode s = Ok v -> ascii_floats v = true.
Proof.
  unfold decode.
  destruct (scan_once (fuel_for s) (skip_ws s)) as [v0 r| |] eqn:Hs;
    try discriminate.
  destruct (skip_ws r); [|discriminate].
  intros H. injection H as <-.
  apply (proj1 (scan_ascii (fuel_for s)) _ _ _ Hs).
Qed.

Lemma loads_ascii (data : bytes) (v : value) :
  loads data = Ok v -> ascii_floats v = true.
Proof.
  unfold loads.
  destruct (decode_as (detect_encoding (map Byte.to_N data)) (map Byte.to_N data))
    as [s|]; [apply decode_ascii | discriminate].
Qed.
End AsciiFacts.


Module ResponseFacts.
Import Text Json Plainness Eff Server Batch Trace Handler.
Import ServerFacts DispatcherFacts HandlerFacts JsonWire AsciiFacts.

Lemma getitem_ascii (v : value) (k : str) (x : value) :
  getitem v k = Ok x -> ascii_floats v = true -> ascii_floats x = true.
Proof.
  destruct v as [| | | | | |d]; try discriminate. cbn [getitem ascii_floats].
  induction d as [|[k' v'] d IH]; cbn [dict_get forallb snd]; [discriminate|].
  intros H Hd. apply andb_true_iff in Hd as [H1 H2].
  destruct (str_eqb k k'); [injection H as <-; exact H1 | exact (IH H H2)].
Qed.

Lemma iter_ascii (v : value) (items : list value) :
  iter v = Ok items -> ascii_floats v = true -> forallb ascii_floats items = true.
Proof.
  destruct v as [| | | | s | l | d]; try discriminate; cbn [iter ascii_floats];
    intros H; injection H as <-.
  - intros _. apply forallb_forall. intros x Hx.
    apply in_map_iff in Hx as (c & <- & _). reflexivity.
  - auto.
  - intros _. apply forallb_forall. intros x Hx.
    apply in_map_iff in Hx as (kv & <- & _). reflexivity.
Qed.

Lemma update_last_ascii (l : list value) (k : str) (v : value) (l' : list value) :
  update_last l k v = Ok l' ->
  forallb ascii_floats l = true -> ascii_floats v = true ->
  forallb ascii_floats l' = true.
Proof.
  unfold update_last. intros H Hl Hv.
  apply forallb_rev in Hl. destruct (rev l) as [|last front]; [discriminate|].
  cbn [forallb] in Hl. apply andb_true_iff in Hl as [H1 H2].
  destruct last as [| | | | | |d]; try discriminate. cbn [update] in H.
  injection H as <-. rewrite forallb_app, (forallb_rev _ _ H2).
  cbn [forallb ascii_floats]. rewrite (dict_set_ascii k v d Hv H1). reflexivity.
Qed.

Section Dispatcher.
Variables seconds World : Type.
Variable E : env seconds World.
Variable self : Server.t seconds.

Lemma for_cmd_ascii (data : list value) :
  forall (acc : list value) (st : state seconds World) (resp : list value)
         (st' : state seconds World),
    for_cmd E self data acc st = (Ok resp, st') ->
    forallb ascii_floats data = true -> forallb ascii_floats acc = true ->
    forallb ascii_floats resp = true.
Proof.
  induction data as [|cmd data IH]; intros acc st resp st' H Hd Ha.
  - cbn [for_cmd] in H. unfold ret in H. injection H as <- _. exact Ha.
  - cbn [forallb] in Hd. apply andb_true_iff in Hd as [Hc Hd].
    cbn [for_cmd] in H. unfold bind at 1 in H. unfold lift at 1 in H.
    destruct (getitem cmd (lit "method")) as [m|e] eqn:Hm; [|discriminate H].
    unfold bind at 1 in H. rewrite execute_cmd_eq in H.
    destruct (subprocess_run E m (cmd_timeout self) (world st)) as [[p|e] w];
      [|discriminate H].
    unfold bind at 1 in H. unfold lift at 1 in H.
    destruct (getitem cmd (lit "id")) as [i|e] eqn:Hi; [|discriminate H].
    unfold bind at 1 in H. unfold lift at 1 in H.
    match type of H with
    | context [update_last ?l ?k ?v] =>
      destruct (update_last l k v) as [r|e] eqn:Hu; [|discriminate H]
    end.
    apply (IH _ _ _ _ H Hd).
    apply (update_last_ascii _ _ _ _ Hu); [|exact (getitem_ascii _ _ _ Hi Hc)].
    rewrite forallb_app, Ha. reflexivity.
Qed.

Lemma request_parser_value_ascii (data : bytes) (st : state seconds World)
      (v : value) (st' : state seconds World) :
  request_parser_value E self data st = (Ok v, st') -> ascii_floats v = true.
Proof.
  rewrite request_parser_value_eq, request_parser_try_eq.
  destruct (loads data) as [request|e] eqn:Hl;
    [|intros H; injection H as <- _; destruct e; reflexivity].
  pose proof (loads_ascii _ _ Hl) as Hr.
  destruct (getitem request (lit "commands")) as [c|e] eqn:Hc;
    [|intros H; injection H as <- _; destruct e; reflexivity].
  pose proof (getitem_ascii _ _ _ Hc Hr) as Hcs.
  destruct (iter c) as [items|e] eqn:Hi;
    [|intros H; injection H as <- _; destruct e; reflexivity].
  pose proof (iter_ascii _ _ Hi Hcs) as His.
  destruct (for_cmd E self items [] st) as [[resp|e] st1] eqn:Hf;
    [|intros H; injection H as <- _; destruct e; reflexivity].
  intros H. injection H as <- _. cbn [ascii_floats forallb snd].
  rewrite (for_cmd_ascii _ _ _ _ _ Hf His eq_refl). reflexivity.
Qed.

(** The text [request_parser] returns is ASCII. *)
Lemma request_parser_text (data : bytes) (st : state seconds World) :
  exists v st',
    request_parser E self data st = (Ok (dumps v), st')
    /\ Forall (fun c => (0 < c < 128)%N) (dumps v).
Proof.
  rewrite request_parser_eq.
  destruct (request_parser_value E self data st) as [[v|e] st1] eqn:Hv.
  - exists v, st1. split; [reflexivity|].
    apply dumps_ascii_floats, (request_parser_value_ascii _ _ _ _ Hv).
  - rewrite request_parser_value_eq in Hv.
    destruct (request_parser_try E self data st) as [[v|e'] st2]; discriminate Hv.
Qed.
End Dispatcher.

Lemma encode_ascii (text : str) :
  Forall (fun c => (0 < c < 128)%N) text ->
  Codec.encode text = Ok (map byte_of_N text).
Proof.
  intros H. unfold Codec.encode. rewrite (utf8_encode_ascii _ H). reflexivity.
Qed.

Lemma decode_ascii_bytes (text : str) :
  Forall (fun c => (0 < c < 128)%N) text ->
  Codec.decode (map byte_of_N text) = Ok text.
Proof.
  intros H. unfold Codec.decode.
  rewrite (map_to_N_byte_of_N _ H), (utf8_decode_ascii false _ H). reflexivity.
Qed.
End ResponseFacts.

Module HandlerRuns.
Import Text Json Plainness Eff Server Batch Trace Handler.
Import ServerFacts DispatcherFacts HandlerFacts JsonWire AsciiFacts ResponseFacts.

(** X1.  The text [request_parser] returns can always be put on the wire:
    whatever the bytes received and whatever the processes answer, it is
    ASCII, so [result.encode()] does not raise and writes one octet for
    each character, and decoding those octets as UTF-8, as the client
    does, gives the text back. *)
Theorem response_text_encodes :
  forall (seconds World : Type) (E : env seconds World) (self : Server.t seconds)
         (data : bytes) (st : state seconds World),
    exists text payload st',
      request_parser E self data st = (Ok text, st')
      /\ Codec.encode text = Ok payload
      /\ length payload = length text
      /\ Codec.decode payload = Ok text.
Proof.
  intros seconds World E self data st.
  destruct (request_parser_text _ _ E self data st) as (v & st' & Hr & Ha).
  exists (dumps v), (map byte_of_N (dumps v)), st'.
  split; [exact Hr|]. split; [apply encode_ascii, Ha|].
  split; [apply length_map | apply decode_ascii_bytes, Ha].
Qed.


(** X3.  When the read yields no bytes, and when it raises, nothing is
    executed and nothing is written: the handler prints one line and
    closes.  The line is the timeout message for [socket.timeout] and the
    error message for every other exception. *)
Theorem handle_client_closes_silently :
  forall (seconds World : Type) (E : env seconds World) (self : Server.t seconds)
         (conn : socket) (addr : address) (st : state seconds World) (w : World),
    (conn_recv E conn 1024 (world st) = (Ok [], w) ->
     trace (snd (handle_client E self conn addr st))
     = trace st ++ [EPrint (MConnected addr);
                    ESetTimeout conn (conn_timeout self);
                    ERecv conn 1024;
                    EPrint (MEmpty addr);
                    EClose conn])
    /\ (forall e,
           conn_recv E conn 1024 (world st) = (Raise e, w) ->
           trace (snd (handle_client E self conn addr st))
           = trace st ++ [EPrint (MConnected addr);
                          ESetTimeout conn (conn_timeout self);
                          ERecv conn 1024;
                          EPrint (match e with
                                  | SocketTimeout => MTimeout addr
                                  | _ => MError addr e
                                  end);
                          EClose conn]).
Proof.
  intros seconds World E self conn addr st w. split.
  - intros Hr. rewrite handle_client_eq. cbv zeta. rewrite Hr.
    rewrite closing_trace. cbn [trace]. rewrite <- !app_assoc. reflexivity.
  - intros e Hr. rewrite handle_client_eq. cbv zeta. rewrite Hr.
    rewrite closing_trace. cbn [trace]. rewrite <- !app_assoc. reflexivity.
Qed.

Lemma handle_client_closes_silently_witness :
  trace (snd (handle_client (Script.server_env (Ok [])) Script.server 4%N
                            (lit "10.0.0.7", 50000%N) (Script.start [])))
  = [EPrint (MConnected (lit "10.0.0.7", 50000%N));
     ESetTimeout 4%N 10%N; ERecv 4%N 1024%N;
     EPrint (MEmpty (lit "10.0.0.7", 50000%N)); EClose 4%N]
  /\ trace (snd (handle_client (Script.server_env (Raise SocketTimeout))
                               Script.server 4%N
                               (lit "10.0.0.7", 50000%N) (Script.start [])))
     = [EPrint (MConnected (lit "10.0.0.7", 50000%N));
        ESetTimeout 4%N 10%N; ERecv 4%N 1024%N;
        EPrint (MTimeout (lit "10.0.0.7", 50000%N)); EClose 4%N].
Proof.
  split.
  - exact (proj1 (handle_client_closes_silently N _ (Script.server_env (Ok []))
                    Script.server 4%N (lit "10.0.0.7", 50000%N)
                    (Script.start []) []) eq_refl).
  - exact (proj2 (handle_client_closes_silently N _
                    (Script.server_env (Raise SocketTimeout))
                    Script.server 4%N (lit "10.0.0.7", 50000%N)
                    (Script.start []) []) SocketTimeout eq_refl).
Defined.



End HandlerRuns.


Module DispatcherRuns.
Import Text Json Eff Server Batch Trace.
Import ServerFacts DispatcherFacts ResponseOrder.

Section Loop.
Variables seconds World : Type.
Variable E : env seconds World.
Variable self : Server.t seconds.

(** One turn of the loop, whatever the entry. *)
Lemma for_cmd_unfold (cmd : value) (cmds acc : list value)
      (st : state seconds World) :
  for_cmd E self (cmd :: cmds) acc st =
  match getitem cmd (lit "method") with
  | Raise e => (Raise e, st)
  | Ok m =>
    let st1 := State (snd (subprocess_run E m (cmd_timeout self) (world st)))
                     (trace st ++ [ERun m (cmd_timeout self)]) in
    match fst (subprocess_run E m (cmd_timeout self) (world st)) with
    | Raise e => (Raise e, st1)
    | Ok p =>
      match getitem cmd (lit "id") with
      | Raise e => (Raise e, st1)
      | Ok i =>
        match update_last
                (acc ++ [VDict [(lit "status", VBool (returncode p =? 0)%Z);
                                (lit "stdout", VStr (stdout p));
                                (lit "stderr", VStr (stderr p));
                                (lit "error_code",
                                 VInt (if contains not_found (stderr p)
                                       then 3 else 0)%Z)]])
                (lit "id") i with
        | Raise e => (Raise e, st1)
        | Ok r => for_cmd E self cmds r st1
        end
      end
    end
  end.
Proof.
  cbn [for_cmd]. unfold bind at 1. unfold lift at 1.
  destruct (getitem cmd (lit "method")) as [m|e]; [|reflexivity].
  unfold bind at 1. rewrite execute_cmd_eq. cbv zeta.
  destruct (subprocess_run E m (cmd_timeout self) (world st)) as [[p|e] w];
    [|reflexivity].
  cbn [fst snd]. unfold bind at 1. unfold lift at 1.
  destruct (getitem cmd (lit "id")) as [i|e]; [|reflexivity].
  unfold bind at 1. unfold lift at 1.
  match goal with
  | |- context [update_last ?l ?k ?v] =>
    destruct (update_last l k v) as [r|e]; reflexivity
  end.
Qed.

(** The loop runs the commands of a prefix of the list, in order, and all
    of them when it completes. *)
Lemma for_cmd_prefix (cmds : list value) :
  forall (acc : list value) (st : state seconds World),
  exists k,
    k <= length cmds
    /\ trace (snd (for_cmd E self cmds acc st))
       = trace st
         ++ map (fun c => ERun (method_of c) (cmd_timeout self)) (firstn k cmds)
    /\ Forall (fun c => getitem c (lit "method") = Ok (method_of c))
              (firstn k cmds)
    /\ (forall resp, fst (for_cmd E self cmds acc st) = Ok resp ->
                     k = length cmds).
Proof.
  induction cmds as [|cmd cmds IH]; intros acc st.
  - exists 0. cbn. rewrite app_nil_r. auto.
  - rewrite for_cmd_unfold.
    destruct (getitem cmd (lit "method")) as [m|e] eqn:Hm.
    2:{ exists 0. cbn. rewrite app_nil_r.
        split; [auto with arith|]. split; [reflexivity|]. split; [constructor|].
        intros resp H. discriminate H. }
    assert (Hmo : method_of cmd = m) by (unfold method_of; rewrite Hm; reflexivity).
    assert (Hone : forall (e : exn) (st1 : state seconds World),
               trace st1 = trace st ++ [ERun m (cmd_timeout self)] ->
               exists k,
                 k <= length (cmd :: cmds)
                 /\ trace (snd (@Raise (list value) e, st1))
                    = trace st
                      ++ map (fun c => ERun (method_of c) (cmd_timeout self))
                             (firstn k (cmd :: cmds))
                 /\ Forall (fun c => getitem c (lit "method") = Ok (method_of c))
                           (firstn k (cmd :: cmds))
                 /\ (forall resp, fst (@Raise (list value) e, st1) = Ok resp ->
                                  k = length (cmd :: cmds))).
    { intros e st1 Ht. exists 1. cbn [length firstn map snd fst]. rewrite Hmo.
      split; [auto with arith|]. split; [exact Ht|].
      split; [constructor; [congruence | constructor]|].
      intros resp H. discriminate H. }
    cbv zeta.
    destruct (subprocess_run E m (cmd_timeout self) (world st)) as [[p|e] w];
      cbn [fst snd]; [|apply Hone; reflexivity].
    destruct (getitem cmd (lit "id")) as [i|e]; [|apply Hone; reflexivity].
    match goal with
    | |- context [update_last ?l ?k ?v] =>
      destruct (update_last l k v) as [r|e]; [|apply Hone; reflexivity]
    end.
    destruct (IH r (State w (trace st ++ [ERun m (cmd_timeout self)])))
      as (k & Hk & Ht & Hf & Hall).
    exists (S k). cbn [length firstn map]. rewrite Ht, Hmo. cbn [trace].
    rewrite <- app_assoc.
    split; [auto with arith|]. split; [reflexivity|].
    split; [constructor; [congruence | exact Hf]|].
    intros resp H. rewrite (Hall resp H). reflexivity.
Qed.
End Loop.

(** X6.  [request_parser] asks nothing of the world but to run commands:
    when the bytes do not parse, or the parsed value has no [commands],
    it runs nothing and leaves the world as it was; when [commands] is a
    list, it runs the [method] of the entries of a prefix of that list, in
    order, each once and with the configured timeout, and of the whole
    list when the response is a list of results. *)
Theorem commands_run_in_order :
  forall (seconds World : Type) (E : env seconds World) (self : Server.t seconds)
         (data : bytes) (st : state seconds World),
    (forall e, loads data = Raise e ->
               snd (request_parser E self data st) = st)
    /\ (forall request e,
           loads data = Ok request ->
           getitem request (lit "commands") = Raise e ->
           snd (request_parser E self data st) = st)
    /\ (forall request cmds,
           loads data = Ok request ->
           getitem request (lit "commands") = Ok (VList cmds) ->
           exists k,
             k <= length cmds
             /\ trace (snd (request_parser E self data st))
                = trace st
                  ++ map (fun c => ERun (method_of c) (cmd_timeout self))
                         (firstn k cmds)
             /\ Forall (fun c => getitem c (lit "method") = Ok (method_of c))
                       (firstn k cmds)
             /\ (forall results,
                    fst (request_parser_value E self data st)
                    = Ok (VDict [(lit "response", VList results)]) ->
                    k = length cmds)).
Proof.
  intros seconds World E self data st. split; [|split].
  - intros e Hl.
    rewrite request_parser_eq, request_parser_value_eq, request_parser_try_eq, Hl.
    reflexivity.
  - intros request e Hl Hc.
    rewrite request_parser_eq, request_parser_value_eq, request_parser_try_eq,
      Hl, Hc.
    reflexivity.
  - intros request cmds Hl Hc.
    destruct (for_cmd_prefix _ _ E self cmds [] st) as (k & Hk & Ht & Hf & Hall).
    exists k. split; [exact Hk|].
    rewrite request_parser_eq, request_parser_value_eq, request_parser_try_eq,
      Hl, Hc.
    cbn [iter].
    destruct (for_cmd E self cmds [] st) as [[resp|e] st1]; cbn [fst snd] in *.
    + repeat split; auto. intros results _. apply (Hall resp eq_refl).
    + repeat split; auto. intros results H. destruct e; discriminate H.
Qed.

Lemma commands_run_in_order_witness :
  exists k,
    k <= 3
    /\ trace (snd (request_parser (Script.server_env (Ok [])) Script.server
                     Script.three_commands
                     (Script.start [Script.exited 0%Z "success" EmptyString;
                                    Raise TimeoutExpired])))
       = []
         ++ map (fun c => ERun (method_of c) 5%N)
                (firstn k [Script.command "001" "echo success";
                           Script.command "002" "sleep 60";
                           Script.command "003" "echo another"]).
Proof.
  destruct (proj2 (proj2 (commands_run_in_order N _ (Script.server_env (Ok []))
                            Script.server Script.three_commands
                            (Script.start [Script.exited 0%Z "success" EmptyString;
                                           Raise TimeoutExpired])))
              (VDict [(lit "commands",
                       VList [Script.command "001" "echo success";
                              Script.command "002" "sleep 60";
                              Script.command "003" "echo another"])])
              [Script.command "001" "echo success";
               Script.command "002" "sleep 60";
               Script.command "003" "echo another"]
              ltac:(vm_compute; reflexivity) ltac:(reflexivity))
    as (k & Hk & Ht & _).
  exists k. split; [exact Hk | exact Ht].
Defined.

(** X7.  In the response to a request whose entries all have both keys
    and whose executions all complete, the result at each position is the
    object with the five fields [status], [stdout], [stderr], [error_code]
    and [id], in this order: the first four as [execute_cmd] reports the
    process run for that entry, the last the entry's own [id], whatever
    JSON value that is. *)
Theorem response_lists_results :
  forall (seconds World : Type) (E : env seconds World) (self : Server.t seconds)
         (data : bytes) (st : state seconds World)
         (request : value) (cmds : list value)
         (ps : list CompletedProcess) (w : World),
    loads data = Ok request ->
    getitem request (lit "commands") = Ok (VList cmds) ->
    forallb is_command cmds = true ->
    executions E self (map method_of cmds) (world st) = (Ok ps, w) ->
    exists results,
      fst (request_parser_value E self data st)
      = Ok (VDict [(lit "response", VList results)])
      /\ world (snd (request_parser_value E self data st)) = w
      /\ length results = length cmds
      /\ forall n cmd p,
           nth_error cmds n = Some cmd -> nth_error ps n = Some p ->
           exists id,
             getitem cmd (lit "id") = Ok id
             /\ nth_error results n
                = Some (VDict [(lit "status", VBool (returncode p =? 0)%Z);
                               (lit "stdout", VStr (stdout p));
                               (lit "stderr", VStr (stderr p));
                               (lit "error_code",
                                VInt (if contains not_found (stderr p)
                                      then 3 else 0)%Z);
                               (lit "id", id)]).
Proof.
  intros seconds World E self data st request cmds ps w Hl Hg Hc Hx.
  destruct (for_cmd_completes _ _ E self cmds Hc [] st ps w Hx) as [Hf Hlen].
  exists (results_of cmds ps).
  rewrite request_parser_value_eq, request_parser_try_eq, Hl, Hg.
  cbn [iter]. rewrite Hf. cbn [fst snd world app].
  split; [reflexivity|]. split; [reflexivity|].
  split; [apply results_of_length, Hlen|].
  clear Hf Hx Hl Hg. revert ps Hlen.
  induction cmds as [|c cmds IH]; intros [|p0 ps] Hlen n cmd p Hn Hp;
    try discriminate Hlen; try (destruct n; discriminate Hn).
  cbn [forallb] in Hc. apply andb_true_iff in Hc as [Hc1 Hc2].
  destruct n as [|n]; cbn [nth_error] in Hn, Hp.
  - injection Hn as <-. injection Hp as <-. exists (id_of c).
    split; [apply getitem_id_of, Hc1 | reflexivity].
  - cbn [length] in Hlen. injection Hlen as Hlen.
    apply (IH Hc2 ps Hlen n cmd p Hn Hp).
Qed.

Lemma response_lists_results_witness :
  exists results,
    fst (request_parser_value (Script.server_env (Ok [])) Script.server
           Script.three_commands
           (Script.start [Script.exited 0%Z "success" EmptyString;
                          Script.exited 127%Z EmptyString "sh: 1: x: not found";
                          Script.exited 0%Z "another" EmptyString]))
    = Ok (VDict [(lit "response", VList results)])
    /\ length results = 3.
Proof.
  destruct (response_lists_results N _ (Script.server_env (Ok [])) Script.server
              Script.three_commands
              (Script.start [Script.exited 0%Z "success" EmptyString;
                             Script.exited 127%Z EmptyString "sh: 1: x: not found";
                             Script.exited 0%Z "another" EmptyString])
              _ _ _ _
              ltac:(vm_compute; reflexivity) ltac:(vm_compute; reflexivity)
              ltac:(vm_compute; reflexivity) ltac:(vm_compute; reflexivity))
    as (results & H1 & _ & H3 & _).
  exists results. split; [exact H1 | exact H3].
Defined.

(** X8.  The entries are not checked before the commands run.  When the
    entries before the first malformed one all complete, their commands
    have been executed by the time the response is the error object with
    [error_code] 2; an entry that has a [method] but no [id] has its own
    command executed as well; nothing after it runs. *)
Theorem schema_error_after_runs :
  forall (seconds World : Type) (E : env seconds World) (self : Server.t seconds)
         (data : bytes) (st : state seconds World)
         (request : value) (pre post : list value) (c : dict)
         (ps : list CompletedProcess) (w : World),
    loads data = Ok request ->
    getitem request (lit "commands") = Ok (VList (pre ++ VDict c :: post)) ->
    forallb is_command pre = true ->
    executions E self (map method_of pre) (world st) = (Ok ps, w) ->
    (dict_get (lit "method") c = None ->
     request_parser_value E self data st
     = (Ok (error_response 2),
        State w (trace st
                 ++ map (fun x => ERun (method_of x) (cmd_timeout self)) pre)))
    /\ (forall m p w',
           dict_get (lit "method") c = Some m ->
           dict_get (lit "id") c = None ->
           subprocess_run E m (cmd_timeout self) w = (Ok p, w') ->
           request_parser_value E self data st
           = (Ok (error_response 2),
              State w' ((trace st
                         ++ map (fun x => ERun (method_of x) (cmd_timeout self))
                                pre)
                        ++ [ERun m (cmd_timeout self)]))).
Proof.
  intros seconds World E self data st request pre post c ps w Hl Hg Hc Hx.
  destruct (for_cmd_completes _ _ E self pre Hc [] st ps w Hx) as [Hf _].
  split.
  - intros Hm.
    rewrite request_parser_value_eq, request_parser_try_eq, Hl, Hg.
    cbn [iter]. rewrite for_cmd_app. unfold bind at 1. rewrite Hf.
    cbn [for_cmd getitem]. rewrite Hm. reflexivity.
  - intros m p w' Hm Hi Hr.
    rewrite request_parser_value_eq, request_parser_try_eq, Hl, Hg.
    cbn [iter]. rewrite for_cmd_app. unfold bind at 1. rewrite Hf.
    cbn [for_cmd getitem]. rewrite Hm.
    unfold bind at 1. unfold lift at 1.
    unfold bind at 1. rewrite execute_cmd_eq. cbn [world trace]. rewrite Hr.
    unfold bind at 1. unfold lift at 1. rewrite Hi. reflexivity.
Qed.

Lemma schema_error_after_runs_witness :
  request_parser_value (Script.server_env (Ok [])) Script.server Script.no_id
    (Script.start [Script.exited 0%Z "done" EmptyString])
  = (Ok (error_response 2),
     State [] (([] ++ map (fun x => ERun (method_of x) 5%N) [])
               ++ [ERun (VStr (lit "sleep 60")) 5%N])).
Proof.
  exact (proj2 (schema_error_after_runs N _ (Script.server_env (Ok []))
                  Script.server Script.no_id
                  (Script.start [Script.exited 0%Z "done" EmptyString])
                  (VDict [(lit "commands",
                           VList [VDict [(lit "method", VStr (lit "sleep 60"))]])])
                  [] [] [(lit "method", VStr (lit "sleep 60"))] []
                  [Script.exited 0%Z "done" EmptyString]
                  ltac:(vm_compute; reflexivity) eq_refl eq_refl eq_refl)
               (VStr (lit "sleep 60")) (Completed 0 (lit "done") [])
               [] eq_refl eq_refl eq_refl).
Defined.
End DispatcherRuns.


Module StripFacts.
Import Text Plainness.
Import AsciiFacts.
Local Open Scope N_scope.

Lemma lstrip_split (s : str) :
  exists a, s = a ++ lstrip s /\ forallb isspace a = true.
Proof.
  induction s as [|c s (a & Hs & Ha)]; [exists []; auto|].
  cbn [lstrip]. destruct (isspace c) eqn:E.
  - exists (c :: a). cbn [app forallb]. rewrite E, Ha, <- Hs. auto.
  - exists []. auto.
Qed.

Lemma lstrip_head (s : str) (c : char) (r : str) :
  lstrip s = c :: r -> isspace c = false.
Proof.
  induction s as [|c0 s IH]; [discriminate|]. cbn [lstrip].
  destruct (isspace c0) eqn:E; [exact IH|].
  intros H. injection H as <- _. exact E.
Qed.

Lemma lstrip_fixed (s : str) : isspace (hd 0 s) = false -> lstrip s = s.
Proof.
  destruct s as [|c s]; [reflexivity|]. cbn [hd lstrip]. intros ->. reflexivity.
Qed.

Lemma hd_rev (s : str) : hd 0 (rev s) = last s 0.
Proof.
  induction s as [|c s IH]; [reflexivity|]. cbn [rev].
  destruct s as [|c' s]; [reflexivity|].
  change (last (c :: c' :: s) 0) with (last (c' :: s) 0). rewrite <- IH.
  cbn [rev]. destruct (rev s); reflexivity.
Qed.

Lemma last_rev (s : str) : last (rev s) 0 = hd 0 s.
Proof.
  rewrite <- (rev_involutive s) at 2. rewrite hd_rev. reflexivity.
Qed.

Lemma last_suffix (a u : str) : u <> [] -> last (a ++ u) 0 = last u 0.
Proof.
  intros Hu. induction a as [|c a IH]; [reflexivity|].
  cbn [app]. destruct (a ++ u) as [|c' r] eqn:E.
  - destruct a; [contradiction | discriminate E].
  - exact IH.
Qed.

(** [strip] takes white space off both ends and nothing else. *)
Lemma strip_split (s : str) :
  exists a b,
    s = a ++ strip s ++ b
    /\ forallb isspace a = true /\ forallb isspace b = true.
Proof.
  unfold strip. destruct (lstrip_split s) as (a & Hs & Ha).
  destruct (lstrip_split (rev (lstrip s))) as (b & Hr & Hb).
  exists a, (rev b). split; [|split; [exact Ha | apply forallb_rev, Hb]].
  rewrite <- rev_app_distr, <- Hr, rev_involutive. exact Hs.
Qed.

Lemma strip_trimmed (s : str) : trimmed (strip s) = true.
Proof.
  unfold strip, trimmed.
  destruct (lstrip_split (rev (lstrip s))) as (b & Hr & Hb).
  destruct (lstrip (rev (lstrip s))) as [|c u] eqn:Eu; [reflexivity|].
  pose proof (lstrip_head _ _ _ Eu) as Hc.
  destruct (rev (c :: u)) as [|c0 r0] eqn:Er; [reflexivity|].
  assert (H0 : c0 = hd 0 (rev (c :: u))) by (rewrite Er; reflexivity).
  rewrite <- Er, last_rev. cbn [hd]. rewrite Hc, andb_true_r.
  rewrite hd_rev in H0.
  rewrite <- (last_suffix b (c :: u)) in H0 by discriminate.
  rewrite <- Hr, last_rev in H0.
  destruct (lstrip s) as [|c1 t] eqn:Et.
  - destruct b; discriminate Hr.
  - cbn [hd] in H0. subst c0. rewrite (lstrip_head _ _ _ Et). reflexivity.
Qed.

Lemma strip_fixed (s : str) : trimmed s = true -> strip s = s.
Proof.
  unfold trimmed, strip. destruct s as [|c s]; [reflexivity|].
  intros H. apply andb_true_iff in H as [H1 H2].
  apply negb_true_iff in H1, H2.
  rewrite (lstrip_fixed (c :: s)) by exact H1.
  rewrite lstrip_fixed by (rewrite hd_rev; exact H2).
  apply rev_involutive.
Qed.
End StripFacts.

Module ClientRuns.
Import Text Json Plainness Eff Client Trace.
Import HandlerFacts ClientFacts JsonWire AsciiFacts ResponseFacts StripFacts.

Section Traces.
Variables seconds World : Type.
Variable E : env World.

Lemma commands_of_ascii (us : list N) (data : list str) :
  ascii_floats (request_of (commands_of us data)) = true.
Proof.
  unfold request_of. cbn [ascii_floats forallb snd]. rewrite andb_true_r.
  apply forallb_forall. intros c Hc. unfold commands_of in Hc.
  apply in_map_iff in Hc as (ud & <- & _). reflexivity.
Qed.

(** What [generate_request] asks of the world: to open the file, to read
    a line from the terminal, and random octets. *)
Lemma generate_request_trace (file_path : option str) (st : state seconds World) :
  exists tr,
    trace (snd (generate_request E file_path st)) = trace st ++ tr
    /\ count is_close tr = 0 /\ count is_sendall tr = 0 /\ count is_recv tr = 0.
Proof.
  assert (Hrep : forall n k,
             (k = @is_close seconds \/ k = @is_sendall seconds
              \/ k = @is_recv seconds) ->
             count k (repeat (EUrandom 16) n) = 0).
  { intros n k Hk. induction n as [|n IH]; [reflexivity|].
    cbn [repeat]. change (EUrandom 16 :: repeat (EUrandom 16) n)
      with ([@EUrandom seconds 16] ++ repeat (EUrandom 16) n).
    rewrite count_app, IH. destruct Hk as [-> | [-> | ->]]; reflexivity. }
  rewrite generate_request_eq, get_cmd_eq. cbv beta zeta.
  destruct file_path as [path|].
  - destruct (open_readlines E path (world st)) as [[[|l lines]|e] w];
      cbn [fst snd world trace].
    + destruct (input E prompt w) as [[line|e] w'].
      * exists ([EOpen path; EInput prompt] ++ repeat (EUrandom 16) 1).
        cbn [snd trace length]. rewrite <- !app_assoc.
        split; [reflexivity|]. repeat split; reflexivity.
      * exists [EOpen path; EInput prompt]. cbn [snd trace].
        rewrite <- !app_assoc. repeat split; reflexivity.
    + exists ([EOpen path] ++ repeat (EUrandom 16) (length (map strip (l :: lines)))).
      cbn [snd trace]. rewrite <- !app_assoc. split; [reflexivity|].
      rewrite !count_app, !Hrep by auto. repeat split; reflexivity.
    + destruct e;
        try (exists [EOpen path]; cbn [snd trace]; repeat split; reflexivity).
      destruct (input E prompt w) as [[line|e] w'].
      * exists ([EOpen path; EInput prompt] ++ repeat (EUrandom 16) 1).
        cbn [snd trace length]. rewrite <- !app_assoc.
        split; [reflexivity|]. repeat split; reflexivity.
      * exists [EOpen path; EInput prompt]. cbn [snd trace].
        rewrite <- !app_assoc. repeat split; reflexivity.
  - destruct (input E prompt (world st)) as [[line|e] w'].
    + exists ([EInput prompt] ++ repeat (EUrandom 16) 1).
      cbn [snd trace length]. rewrite <- !app_assoc.
      split; [reflexivity|]. repeat split; reflexivity.
    + exists [EInput prompt]. cbn [snd trace]. repeat split; reflexivity.
Qed.
(** [send_request], one socket operation after another. *)
Lemma send_request_eq (self : Client.t) (file_path : option str)
      (st : state seconds World) :
  send_request E self file_path st =
  match socket_new E (world st) with
  | (Raise e, w) => (Raise e, State w (trace st ++ [ESocket]))
  | (Ok sock, w1) =>
    let finishing (r : result str) (st5 : state seconds World) :=
      match sock_close E sock (world st5) with
      | (Ok _, w) => (r, State w (trace st5 ++ [EClose sock]))
      | (Raise e, w) => (Raise e, State w (trace st5 ++ [EClose sock]))
      end in
    let reading (st4 : state seconds World) :=
      match sock_recv E sock 1024 (world st4) with
      | (Ok data, w5) =>
        finishing (Codec.decode data) (State w5 (trace st4 ++ [ERecv sock 1024]))
      | (Raise e, w5) =>
        finishing (Raise e) (State w5 (trace st4 ++ [ERecv sock 1024]))
      end in
    let tr1 := trace st ++ [ESocket; EConnect sock (host self) (port self)] in
    match sock_connect E sock (host self) (port self) w1 with
    | (Raise e, w2) => finishing (Raise e) (State w2 tr1)
    | (Ok _, w2) =>
      match generate_request E file_path (State w2 tr1) with
      | (Raise e, st3) => finishing (Raise e) st3
      | (Ok (false, _), st3) => reading st3
      | (Ok (true, text), st3) =>
        match Codec.encode text with
        | Raise e => finishing (Raise e) st3
        | Ok payload =>
          match sock_sendall E sock payload (world st3) with
          | (Raise e, w4) =>
            finishing (Raise e)
                      (State w4 (trace st3 ++ [ESendall sock payload]))
          | (Ok _, w4) =>
            reading (State w4 (trace st3 ++ [ESendall sock payload]))
          end
        end
      end
    end
  end.
Proof.
  unfold send_request. unfold bind at 1. unfold call at 1.
  destruct (socket_new E (world st)) as [[sock|e] w1]; [|reflexivity].
  cbv zeta. unfold try_finally. unfold bind at 1. unfold call at 1.
  cbn [world trace].
  replace ((trace st ++ [ESocket]) ++ [EConnect sock (host self) (port self)])
    with (trace st ++ [ESocket; EConnect sock (host self) (port self)])
    by (rewrite <- app_assoc; reflexivity).
  destruct (sock_connect E sock (host self) (port self) w1) as [[u|e] w2].
  2:{ unfold call. cbn [world trace].
      destruct (sock_close E sock w2) as [[u|e'] w]; reflexivity. }
  unfold bind at 1.
  destruct (generate_request E file_path _) as [[[ok text]|e] st3].
  2:{ unfold call. destruct (sock_close E sock (world st3)) as [[u'|e'] w];
        reflexivity. }
  cbn [fst snd]. unfold bind at 1.
  assert (Hread : forall st4 : state seconds World,
             (let (r, st5) :=
                (data <- call (ERecv sock 1024) (sock_recv E sock 1024) ;;
                 lift (Codec.decode data))%eff st4 in
              match call (EClose sock) (sock_close E sock) st5 with
              | (Ok _, st6) => (r, st6)
              | (Raise e, st6) => (Raise e, st6)
              end)
             = match sock_recv E sock 1024 (world st4) with
               | (Ok data, w5) =>
                 match sock_close E sock w5 with
                 | (Ok _, w) =>
                   (Codec.decode data,
                    State w ((trace st4 ++ [ERecv sock 1024]) ++ [EClose sock]))
                 | (Raise e, w) =>
                   (Raise e,
                    State w ((trace st4 ++ [ERecv sock 1024]) ++ [EClose sock]))
                 end
               | (Raise e, w5) =>
                 match sock_close E sock w5 with
                 | (Ok _, w) =>
                   (Raise e,
                    State w ((trace st4 ++ [ERecv sock 1024]) ++ [EClose sock]))
                 | (Raise e', w) =>
                   (Raise e',
                    State w ((trace st4 ++ [ERecv sock 1024]) ++ [EClose sock]))
                 end
               end).
  { intros st4. unfold bind, call, lift.
    destruct (sock_recv E sock 1024 (world st4)) as [[d|e] w5]; cbn [world trace];
      destruct (sock_close E sock w5) as [[u'|e'] w6]; reflexivity. }
  destruct ok.
  - unfold bind at 1. unfold lift at 1.
    destruct (Codec.encode text) as [payload|e].
    + unfold call at 1.
      destruct (sock_sendall E sock payload (world st3)) as [[u'|e] w4].
      * rewrite Hread. reflexivity.
      * unfold call. cbn [world trace].
        destruct (sock_close E sock w4) as [[u'|e'] w]; reflexivity.
    + unfold call. destruct (sock_close E sock (world st3)) as [[u'|e'] w];
        reflexivity.
  - unfold ret at 1. rewrite Hread. reflexivity.
Qed.
End Traces.

(** X9.  From a file that has lines, [get_cmd] takes one command for each
    line, in order, blank lines included, and asks the terminal nothing.
    Each command is its line without the white space at both ends: what
    is taken off is white space only, and what is left has none at either
    end. *)
Theorem get_cmd_reads_lines :
  forall (seconds World : Type) (E : env World) (path : str)
         (st : state seconds World) (l : str) (lines : list str) (w : World),
    open_readlines E path (world st) = (Ok (l :: lines), w) ->
    exists data,
      get_cmd E (Some path) st
      = (Ok (Sourced data), State w (trace st ++ [EOpen path]))
      /\ length data = length (l :: lines)
      /\ forall n line,
           nth_error (l :: lines) n = Some line ->
           exists cmd a b,
             nth_error data n = Some cmd
             /\ line = a ++ cmd ++ b
             /\ forallb isspace a = true /\ forallb isspace b = true
             /\ trimmed cmd = true.
Proof.
  intros seconds World E path st l lines w Ho.
  exists (map strip (l :: lines)).
  rewrite get_cmd_eq. cbv beta zeta. rewrite Ho. cbn [fst snd].
  split; [reflexivity|]. split; [apply length_map|].
  intros n line Hn. destruct (strip_split line) as (a & b & Hs & Ha & Hb).
  exists (strip line), a, b.
  split; [rewrite nth_error_map, Hn; reflexivity|].
  split; [exact Hs|]. split; [exact Ha|]. split; [exact Hb | apply strip_trimmed].
Qed.

Lemma get_cmd_reads_lines_witness :
  exists data,
    get_cmd (seconds := N)
      (Script.client_env (Ok [lit " ls -la  "; lit "pwd"]) (lit "whoami") [])
      (Some (lit "commands.txt")) (Script.start 7%N)
    = (Ok (Sourced data), State 7%N ([] ++ [EOpen (lit "commands.txt")]))
    /\ length data = 2.
Proof.
  destruct (get_cmd_reads_lines N N
              (Script.client_env (Ok [lit " ls -la  "; lit "pwd"]) (lit "whoami") [])
              (lit "commands.txt") (Script.start 7%N)
              (lit " ls -la  ") [lit "pwd"] 7%N eq_refl)
    as (data & H1 & H2 & _).
  exists data. split; [exact H1 | exact H2].
Defined.

(** X10.  A command that has no white space at either end is taken from
    the file as it is written; in particular stripping twice changes
    nothing more. *)
Theorem strip_keeps_trimmed :
  forall s : str,
    (trimmed s = true -> strip s = s) /\ strip (strip s) = strip s.
Proof.
  intros s. split; [apply strip_fixed|]. apply strip_fixed, strip_trimmed.
Qed.

(** X11.  When the file cannot be located [generate_request] returns
    [(False, "Unable to locate file!")]: nobody is asked for a command and
    no identifier is drawn.  Any other exception of [open], [TypeError]
    apart, leaves [generate_request] as it was raised, and so does any
    exception of [input] once the terminal is asked. *)
Theorem generate_request_failures :
  forall (seconds World : Type) (E : env World) (path : str)
         (st : state seconds World) (w : World),
    (open_readlines E path (world st) = (Raise FileNotFoundError, w) ->
     generate_request E (Some path) st
     = (Ok (false, unable_to_locate), State w (trace st ++ [EOpen path])))
    /\ (forall e,
           open_readlines E path (world st) = (Raise e, w) ->
           e <> FileNotFoundError -> e <> TypeError ->
           generate_request E (Some path) st
           = (Raise e, State w (trace st ++ [EOpen path])))
    /\ (forall e w',
           open_readlines E path (world st) = (Ok [], w) ->
           input E prompt w = (Raise e, w') ->
           generate_request E (Some path) st
           = (Raise e, State w' (trace st ++ [EOpen path; EInput prompt])))
    /\ (forall e,
           input E prompt (world st) = (Raise e, w) ->
           generate_request E None st
           = (Raise e, State w (trace st ++ [EInput prompt]))).
Proof.
  intros seconds World E path st w. split; [|split; [|split]].
  - intros Ho. rewrite generate_request_eq, get_cmd_eq. cbv beta zeta.
    rewrite Ho. reflexivity.
  - intros e Ho H1 H2. rewrite generate_request_eq, get_cmd_eq. cbv beta zeta.
    rewrite Ho. cbn [fst snd]. destruct e; try reflexivity; contradiction.
  - intros e w' Ho Hi. rewrite generate_request_eq, get_cmd_eq. cbv beta zeta.
    rewrite Ho. cbn [fst snd world trace]. rewrite Hi.
    rewrite <- app_assoc. reflexivity.
  - intros e Hi. rewrite generate_request_eq, get_cmd_eq. cbv beta zeta.
    rewrite Hi. reflexivity.
Qed.

Lemma generate_request_failures_witness :
  generate_request (seconds := N)
    (Script.client_env (Raise FileNotFoundError) (lit "whoami") [])
    (Some (lit "missing.txt")) (Script.start 7%N)
  = (Ok (false, unable_to_locate), State 7%N ([] ++ [EOpen (lit "missing.txt")]))
  /\ generate_request (seconds := N)
       (Script.client_env (Raise OSError) (lit "whoami") [])
       (Some (lit "locked.txt")) (Script.start 7%N)
     = (Raise OSError, State 7%N ([] ++ [EOpen (lit "locked.txt")])).
Proof.
  split.
  - exact (proj1 (generate_request_failures N N
                    (Script.client_env (Raise FileNotFoundError) (lit "whoami") [])
                    (lit "missing.txt") (Script.start 7%N) 7%N) eq_refl).
  - refine (proj1 (proj2 (generate_request_failures N N
                            (Script.client_env (Raise OSError) (lit "whoami") [])
                            (lit "locked.txt") (Script.start 7%N) 7%N))
                  OSError eq_refl _ _); discriminate.
Defined.

(** X12.  When commands are sourced and every socket operation succeeds,
    [send_request] connects first, then sources the commands and draws
    their identifiers, writes the encoded request once, reads once, at
    most 1024 bytes, closes the socket and returns the bytes read, decoded
    as UTF-8.  Encoding the request never fails, whatever the commands. *)
Theorem send_request_exchange :
  forall (seconds World : Type) (E : env World) (self : Client.t)
         (file_path : option str) (st st3 : state seconds World)
         (sock : socket) (data : list str) (reply : bytes)
         (w1 w2 w5 w6 w7 : World),
    socket_new E (world st) = (Ok sock, w1) ->
    sock_connect E sock (host self) (port self) w1 = (Ok tt, w2) ->
    get_cmd E file_path
            (State w2 (trace st ++ [ESocket;
                                    EConnect sock (host self) (port self)]))
    = (Ok (Sourced data), st3) ->
    let us := uuids E (length data) (world st3) in
    let payload := map byte_of_N (dumps (request_of (commands_of (fst us) data))) in
    sock_sendall E sock payload (snd us) = (Ok tt, w5) ->
    sock_recv E sock 1024 w5 = (Ok reply, w6) ->
    sock_close E sock w6 = (Ok tt, w7) ->
    send_request E self file_path st
    = (Codec.decode reply,
       State w7 (trace st3
                 ++ repeat (EUrandom 16) (length data)
                 ++ [ESendall sock payload; ERecv sock 1024; EClose sock])).
Proof.
  intros seconds World E self file_path st st3 sock data reply w1 w2 w5 w6 w7
         Hs Hc Hg us payload Hw Hr Hx.
  rewrite send_request_eq, Hs. cbv zeta. rewrite Hc.
  rewrite generate_request_eq, Hg.
  rewrite (encode_ascii _ (dumps_ascii_floats _ (commands_of_ascii _ _))).
  cbn [world trace]. fold us. fold payload. rewrite Hw.
  cbn [world trace]. rewrite Hr. cbn [world trace]. rewrite Hx.
  rewrite <- !app_assoc. reflexivity.
Qed.

Lemma send_request_exchange_witness :
  exists payload,
    send_request (seconds := N)
      (Script.client_env (Ok [lit "pwd"]) (lit "whoami") (blit "done"))
      Script.client (Some (lit "commands.txt")) (Script.start 7%N)
    = (Ok (lit "done"),
       State 8%N ([ESocket; EConnect 3%N (lit "127.0.0.1") 8080%N;
                   EOpen (lit "commands.txt")]
                  ++ repeat (EUrandom 16) 1
                  ++ [ESendall 3%N payload; ERecv 3%N 1024%N; EClose 3%N])).
Proof.
  eexists.
  exact (send_request_exchange N N
           (Script.client_env (Ok [lit "pwd"]) (lit "whoami") (blit "done"))
           Script.client (Some (lit "commands.txt")) (Script.start 7%N)
           (State 7%N [ESocket; EConnect 3%N (lit "127.0.0.1") 8080%N;
                       EOpen (lit "commands.txt")])
           3%N [lit "pwd"] (blit "done") 7%N 7%N 8%N 8%N 8%N
           eq_refl eq_refl eq_refl eq_refl eq_refl eq_refl).
Defined.

(** X13.  Once the socket exists, [send_request] closes it on every path,
    last of all and only once; before that it has tried to connect first,
    and has written at most once and read at most once.  When connecting
    fails nothing is sourced, written or read. *)
Theorem send_request_closes :
  forall (seconds World : Type) (E : env World) (self : Client.t)
         (file_path : option str) (st : state seconds World)
         (sock : socket) (w1 : World),
    socket_new E (world st) = (Ok sock, w1) ->
    (exists tr,
        trace (snd (send_request E self file_path st))
        = trace st ++ [ESocket; EConnect sock (host self) (port self)]
          ++ tr ++ [EClose sock]
        /\ count is_close tr = 0
        /\ count is_sendall tr <= 1
        /\ count is_recv tr <= 1)
    /\ (forall e w2,
           sock_connect E sock (host self) (port self) w1 = (Raise e, w2) ->
           trace (snd (send_request E self file_path st))
           = trace st ++ [ESocket; EConnect sock (host self) (port self);
                          EClose sock]).
Proof.
  intros seconds World E self file_path st sock w1 Hs.
  rewrite send_request_eq, Hs. cbv zeta.
  assert (Hfin : forall (r : result str) (st5 : state seconds World),
             trace (snd (match sock_close E sock (world st5) with
                         | (Ok _, w) => (r, State w (trace st5 ++ [EClose sock]))
                         | (Raise e, w) =>
                           (Raise e, State w (trace st5 ++ [EClose sock]))
                         end))
             = trace st5 ++ [EClose sock]).
  { intros r st5. destruct (sock_close E sock (world st5)) as [[u|e] w];
      reflexivity. }
  assert (Hread : forall st4 : state seconds World,
             trace (snd (match sock_recv E sock 1024 (world st4) with
                         | (Ok data, w5) =>
                           match sock_close E sock
                                   (world (State w5 (trace st4
                                                     ++ [ERecv sock 1024]))) with
                           | (Ok _, w) =>
                             (Codec.decode data,
                              State w (trace (State w5 (trace st4
                                                        ++ [ERecv sock 1024]))
                                       ++ [EClose sock]))
                           | (Raise e, w) =>
                             (Raise e,
                              State w (trace (State w5 (trace st4
                                                        ++ [ERecv sock 1024]))
                                       ++ [EClose sock]))
                           end
                         | (Raise e, w5) =>
                           match sock_close E sock
                                   (world (State w5 (trace st4
                                                     ++ [ERecv sock 1024]))) with
                           | (Ok _, w) =>
                             (Raise e,
                              State w (trace (State w5 (trace st4
                                                        ++ [ERecv sock 1024]))
                                       ++ [EClose sock]))
                           | (Raise e', w) =>
                             (Raise e',
                              State w (trace (State w5 (trace st4
                                                        ++ [ERecv sock 1024]))
                                       ++ [EClose sock]))
                           end
                         end))
             = trace st4 ++ [ERecv sock 1024; EClose sock]).
  { intros st4. destruct (sock_recv E sock 1024 (world st4)) as [[d|e] w5];
      cbn [world trace]; destruct (sock_close E sock w5) as [[u|e'] w];
        cbn [snd trace]; rewrite <- app_assoc; reflexivity. }
  destruct (sock_connect E sock (host self) (port self) w1) as [[u|e] w2].
  2:{ rewrite Hfin. cbn [trace]. rewrite <- !app_assoc. split.
      - exists []. repeat split; auto.
      - intros e0 w0 _. reflexivity. }
  split; [|intros e w0 H; discriminate H].
  destruct (generate_request_trace seconds World E file_path
              (State w2 (trace st
                         ++ [ESocket; EConnect sock (host self) (port self)])))
    as (tg & Htg & G1 & G2 & G3).
  destruct (generate_request E file_path _) as [[[ok text]|e] st3];
    cbn [snd trace] in Htg.
  2:{ rewrite Hfin, Htg. exists tg. rewrite <- !app_assoc.
      split; [reflexivity|]. rewrite G1, G2, G3. auto. }
  destruct ok.
  - destruct (Codec.encode text) as [payload|e].
    + destruct (sock_sendall E sock payload (world st3)) as [[u'|e] w4].
      * rewrite (Hread (State w4 (trace st3 ++ [ESendall sock payload]))).
        cbn [trace]. rewrite Htg.
        exists (tg ++ [ESendall sock payload; ERecv sock 1024]).
        rewrite <- !app_assoc. split; [reflexivity|].
        rewrite !count_app, G1, G2, G3. repeat split; cbn; lia.
      * rewrite Hfin. cbn [trace]. rewrite Htg.
        exists (tg ++ [ESendall sock payload]).
        rewrite <- !app_assoc. split; [reflexivity|].
        rewrite !count_app, G1, G2, G3. repeat split; cbn; lia.
    + rewrite Hfin, Htg. exists tg. rewrite <- !app_assoc.
      split; [reflexivity|]. rewrite G1, G2, G3. auto.
  - rewrite (Hread st3), Htg.
    exists (tg ++ [ERecv sock 1024]).
    rewrite <- !app_assoc. split; [reflexivity|].
    rewrite !count_app, G1, G2, G3. repeat split; cbn; lia.
Qed.

Lemma send_request_closes_witness :
  exists tr,
    trace (snd (send_request (seconds := N)
                  (Script.client_env (Ok [lit "pwd"]) (lit "whoami") (blit "done"))
                  Script.client (Some (lit "commands.txt")) (Script.start 7%N)))
    = [] ++ [ESocket; EConnect 3%N (lit "127.0.0.1") 8080%N]
      ++ tr ++ [EClose 3%N]
    /\ count is_close tr = 0.
Proof.
  destruct (proj1 (send_request_closes N N
                     (Script.client_env (Ok [lit "pwd"]) (lit "whoami")
                                        (blit "done"))
                     Script.client (Some (lit "commands.txt")) (Script.start 7%N)
                     3%N 7%N eq_refl))
    as (tr & H1 & H2 & _).
  exists tr. split; [exact H1 | exact H2].
Defined.
End ClientRuns.


Module Exchange.
Import Text Json Plainness Eff Batch Trace.
Import ServerFacts DispatcherFacts ResponseOrder ClientFacts JsonWire WireFacts.





End Exchange.


Module ListenerRuns.
Import Text Listener.

Lemma round_never_closes (s : Eff.socket) (l : list (Eff.socket * Eff.address)) :
  filter is_close (flat_map (round s) l) = [].
Proof. induction l as [|ca l IH]; [reflexivity | exact IH]. Qed.

Lemma round_accepts_once (s : Eff.socket) (l : list (Eff.socket * Eff.address)) :
  length (filter is_accept (flat_map (round s) l)) = length l.
Proof.
  induction l as [|ca l IH]; [reflexivity|].
  cbn [flat_map round app filter is_accept length]. rewrite IH. reflexivity.
Qed.

Section Loop.
Variables seconds World : Type.
Variable E : env World.
Variable self : Server.t seconds.

Lemma accepted_length (rounds : nat) :
  forall (s : Eff.socket) (w : World),
    length (accepted E rounds s w) <= rounds.
Proof.
  induction rounds as [|n IH]; intros s w; cbn [accepted]; [cbn; lia|].
  destruct (accept E s w) as [[[conn addr]|e] w1]; [|cbn; lia].
  destruct (thread_start E conn addr w1) as [[u|e] w2]; cbn [length].
  - specialize (IH s w2). lia.
  - lia.
Qed.

(** The loop, round by round: each connection [accept] answers is handed to
    one new thread before the next call of [accept]. *)
Lemma while_true_trace (rounds : nat) :
  forall (s : Eff.socket) (st : run World),
  exists tail,
    events (snd (while_true E rounds s st))
    = events st ++ flat_map (round s) (accepted E rounds s (world_of st)) ++ tail
    /\ match fst (while_true E rounds s st) with
       | Running =>
         tail = [] /\ length (accepted E rounds s (world_of st)) = rounds
       | Raised _ =>
         tail = []
         \/ (tail = [LAccept s]
             /\ length (accepted E rounds s (world_of st)) < rounds)
       end.
Proof.
  induction rounds as [|n IH]; intros s st.
  - exists []. cbn. rewrite app_nil_r. auto.
  - cbn [while_true accepted]. unfold call. cbn [world_of events].
    destruct (accept E s (world_of st)) as [[[conn addr]|e] w1].
    + cbn [world_of events].
      destruct (thread_start E conn addr w1) as [[u|e] w2].
      * destruct (IH s (Run w2 ((events st ++ [LAccept s])
                                 ++ [LThreadStart conn addr])))
          as (tail & Htr & Hout).
        cbn [world_of events] in Htr, Hout.
        exists tail. split.
        -- rewrite Htr. cbn [flat_map round fst snd].
           rewrite <- !app_assoc. reflexivity.
        -- destruct (fst (while_true E n s _)).
           ++ destruct Hout as [Ht | [Ht Hl]]; [left; exact Ht | right].
              split; [exact Ht | cbn [length]; lia].
           ++ destruct Hout as [Ht Hl]. split; [exact Ht|].
              cbn [length]. rewrite Hl. reflexivity.
      * exists []. cbn [fst snd events flat_map round].
        rewrite <- !app_assoc. split; [reflexivity | left; reflexivity].
    + exists [LAccept s]. cbn [fst snd events flat_map app length].
      split; [reflexivity | right; split; [reflexivity | lia]].
Qed.

Lemma while_true_quiet (rounds : nat) (s : Eff.socket) (st : run World) :
  exists tr,
    events (snd (while_true E rounds s st)) = events st ++ tr
    /\ filter is_close tr = []
    /\ length (filter is_accept tr) <= rounds
    /\ (fst (while_true E rounds s st) = Running ->
        length (filter is_accept tr) = rounds
        /\ length (filter is_thread_start tr) = rounds).
Proof.
  destruct (while_true_trace rounds s st) as (tail & Htr & Hout).
  exists (flat_map (round s) (accepted E rounds s (world_of st)) ++ tail).
  split; [exact Htr|].
  pose proof (accepted_length rounds s (world_of st)) as Hlen.
  destruct (fst (while_true E rounds s st)) eqn:Hr.
  - rewrite !filter_app, round_never_closes, length_app, round_accepts_once.
    destruct Hout as [-> | [-> Hlt]]; cbn [filter is_close is_accept length app];
      (split; [reflexivity|]); (split; [lia | discriminate]).
  - destruct Hout as [-> Hl].
    rewrite !filter_app, round_never_closes, length_app, round_accepts_once.
    split; [reflexivity|]. split; [cbn; lia|]. intros _.
    split; [cbn; lia|]. rewrite app_nil_r. rewrite <- Hl at 2.
    clear. induction (accepted E rounds s (world_of st)) as [|ca l IH];
      [reflexivity|].
    cbn [flat_map round app filter is_thread_start length]. rewrite IH.
    reflexivity.
Qed.
End Loop.

(** X15.  Once the listening socket is created, configured, bound and
    listening, [start] prints its message and then serves: every connection
    [accept] answers is handed, with its address, to one new thread before
    [accept] is called again.  The loop never ends by itself; when [accept]
    or the start of a thread raises, the listening socket is closed. *)
Theorem start_serves_each_connection :
  forall (seconds World : Type) (E : env World) (self : Server.t seconds)
         (rounds : nat) (st : run World) (s : Eff.socket)
         (w0 w1 w2 w3 : World),
    socket_new E (world_of st) = (Ok s, w0) ->
    setsockopt E s w0 = (Ok tt, w1) ->
    bind E s (Server.host self) (Server.port self) w1 = (Ok tt, w2) ->
    listen E s w2 = (Ok tt, w3) ->
    exists tail,
      events (snd (start E self rounds st))
      = events st
        ++ [LSocket; LSetsockopt s;
            LBind s (Server.host self) (Server.port self);
            LListen s; LPrint (Server.host self) (Server.port self)]
        ++ flat_map (round s) (accepted E rounds s w3) ++ tail
      /\ match fst (start E self rounds st) with
         | Running => tail = [] /\ length (accepted E rounds s w3) = rounds
         | Raised _ => tail = [LClose s] \/ tail = [LAccept s; LClose s]
         end.
Proof.
  intros seconds World E self rounds st s w0 w1 w2 w3 Hs Ho Hb Hl.
  unfold start, serving, call. rewrite Hs. cbn [world_of events].
  rewrite Ho. cbn [world_of events]. rewrite Hb. cbn [world_of events].
  rewrite Hl. cbn [world_of events].
  match goal with
  | |- context [while_true E rounds s ?st0] =>
    destruct (while_true_trace _ E rounds s st0) as (tail & Htr & Hout);
    destruct (while_true E rounds s st0) as [[e|] st2]
  end; cbn [fst snd world_of events] in *.
  - destruct (close E s (world_of st2)) as [[u|e'] w4]; cbn [fst snd events];
      rewrite Htr; rewrite <- !app_assoc; cbn [app];
      (destruct Hout as [-> | [-> _]];
       [exists [LClose s] | exists [LAccept s; LClose s]];
       (split; [reflexivity | auto])).
  - destruct Hout as [-> Hlen]. exists []. rewrite Htr.
    rewrite <- !app_assoc. cbn [app]. auto.
Qed.

Lemma start_serves_each_connection_witness :
  exists tail,
    events (snd (start scripted Script.server 3
                   (Run [(4%N, (lit "10.0.0.7", 50123%N));
                         (5%N, (lit "10.0.0.9", 50124%N))] [])))
    = [] ++ [LSocket; LSetsockopt 3%N; LBind 3%N (lit "127.0.0.1") 8080%N;
             LListen 3%N; LPrint (lit "127.0.0.1") 8080%N]
      ++ flat_map (round 3%N)
           (accepted scripted 3 3%N
              [(4%N, (lit "10.0.0.7", 50123%N));
               (5%N, (lit "10.0.0.9", 50124%N))])
      ++ tail
    /\ match fst (start scripted Script.server 3
                    (Run [(4%N, (lit "10.0.0.7", 50123%N));
                          (5%N, (lit "10.0.0.9", 50124%N))] [])) with
       | Running =>
         tail = []
         /\ length (accepted scripted 3 3%N
                      [(4%N, (lit "10.0.0.7", 50123%N));
                       (5%N, (lit "10.0.0.9", 50124%N))]) = 3
       | Raised _ => tail = [LClose 3%N] \/ tail = [LAccept 3%N; LClose 3%N]
       end.
Proof.
  exact (start_serves_each_connection N _ scripted Script.server 3
           (Run [(4%N, (lit "10.0.0.7", 50123%N));
                 (5%N, (lit "10.0.0.9", 50124%N))] [])
           3%N _ _ _ _ eq_refl eq_refl eq_refl eq_refl).
Defined.

(** X16.  [start] never leaves the listening socket open behind it.  Once
    the socket exists, whatever raises afterwards (setting the option,
    binding, listening, accepting, starting a thread), the close of the
    socket is the last call of [start] and the only close; nothing is
    closed while the loop runs, and [accept] is called at most once a
    round.  In particular, when binding fails [start] closes the socket
    without having listened, printed or accepted, and passes on the
    exception of [bind] (or the one of [close], if closing raises too).
    When the socket cannot be created, nothing else is called. *)
Theorem start_closes_listening_socket :
  forall (seconds World : Type) (E : env World) (self : Server.t seconds)
         (rounds : nat) (st : run World),
    match socket_new E (world_of st) with
    | (Raise e, w) =>
      start E self rounds st = (Raised e, Run w (events st ++ [LSocket]))
    | (Ok s, w0) =>
      (exists tr,
         filter is_close tr = []
         /\ length (filter is_accept tr) <= rounds
         /\ match fst (start E self rounds st) with
            | Running =>
              events (snd (start E self rounds st))
              = events st ++ [LSocket] ++ tr
              /\ length (filter is_thread_start tr) = rounds
            | Raised _ =>
              events (snd (start E self rounds st))
              = events st ++ [LSocket] ++ tr ++ [LClose s]
            end)
      /\ (forall e w1 w2,
            setsockopt E s w0 = (Ok tt, w1) ->
            bind E s (Server.host self) (Server.port self) w1 = (Raise e, w2) ->
            start E self rounds st
            = (Raised match fst (close E s w2) with
                      | Ok _ => e
                      | Raise e' => e'
                      end,
               Run (snd (close E s w2))
                   (events st
                    ++ [LSocket; LSetsockopt s;
                        LBind s (Server.host self) (Server.port self);
                        LClose s])))
    end.
Proof.
  intros seconds World E self rounds st.
  destruct (socket_new E (world_of st)) as [[s|e] w0] eqn:Hs.
  2: { unfold start, call. rewrite Hs. reflexivity. }
  split.
  - unfold start, serving, call. rewrite Hs. cbn [world_of events].
    assert (Hclose : forall (e : exn) (st2 : run World) (tr : list event),
               events st2 = (events st ++ [LSocket]) ++ tr ->
               events (snd (match
                              (let (r, w) := close E s (world_of st2) in
                               (r, Run w (events st2 ++ [LClose s])))
                            with
                            | (Ok _, st3) => (Raised e, st3)
                            | (Raise e', st3) => (Raised e', st3)
                            end))
               = events st ++ [LSocket] ++ tr ++ [LClose s]
               /\ exists e0,
                   fst (match
                          (let (r, w) := close E s (world_of st2) in
                           (r, Run w (events st2 ++ [LClose s])))
                        with
                        | (Ok _, st3) => (Raised e, st3)
                        | (Raise e', st3) => (Raised e', st3)
                        end) = Raised e0).
    { intros e st2 tr H.
      destruct (close E s (world_of st2)) as [[u|e'] w4];
        cbn [fst snd events]; rewrite H, <- !app_assoc; eauto. }
    destruct (setsockopt E s w0) as [[u|e] w1].
    2: { exists [LSetsockopt s].
         destruct (Hclose e (Run w1 ((events st ++ [LSocket]) ++ [LSetsockopt s]))
                     [LSetsockopt s] eq_refl) as (H1 & e0 & H2).
         rewrite H2. split; [reflexivity|]. split; [cbn; lia | exact H1]. }
    cbn [world_of events].
    destruct (bind E s (Server.host self) (Server.port self) w1) as [[u1|e] w2].
    2: { exists [LSetsockopt s; LBind s (Server.host self) (Server.port self)].
         match goal with
         | |- context [close E s (world_of ?st2)] =>
           destruct (Hclose e st2
                       [LSetsockopt s;
                        LBind s (Server.host self) (Server.port self)])
             as (H1 & e0 & H2);
             [cbn [events]; rewrite <- !app_assoc; reflexivity|]
         end.
         rewrite H2. split; [reflexivity|]. split; [cbn; lia | exact H1]. }
    cbn [world_of events].
    destruct (listen E s w2) as [[u2|e] w3].
    2: { exists [LSetsockopt s; LBind s (Server.host self) (Server.port self);
                 LListen s].
         match goal with
         | |- context [close E s (world_of ?st2)] =>
           destruct (Hclose e st2
                       [LSetsockopt s;
                        LBind s (Server.host self) (Server.port self);
                        LListen s])
             as (H1 & e0 & H2);
             [cbn [events]; rewrite <- !app_assoc; reflexivity|]
         end.
         rewrite H2. split; [reflexivity|]. split; [cbn; lia | exact H1]. }
    cbn [world_of events].
    match goal with
    | |- context [while_true E rounds s ?st0] =>
      destruct (while_true_quiet _ E rounds s st0)
        as (tr & Htr & Hq & Ha & Hrun);
      destruct (while_true E rounds s st0) as [[e|] st2]
    end; cbn [fst snd world_of events] in *.
    + exists ([LSetsockopt s; LBind s (Server.host self) (Server.port self);
               LListen s; LPrint (Server.host self) (Server.port self)] ++ tr).
      destruct (Hclose e st2
                  ([LSetsockopt s; LBind s (Server.host self) (Server.port self);
                    LListen s; LPrint (Server.host self) (Server.port self)]
                   ++ tr))
        as (H1 & e0 & H2);
        [rewrite Htr, <- !app_assoc; reflexivity|].
      rewrite H2. split; [exact Hq|]. split; [exact Ha | exact H1].
    + exists ([LSetsockopt s; LBind s (Server.host self) (Server.port self);
               LListen s; LPrint (Server.host self) (Server.port self)] ++ tr).
      destruct (Hrun eq_refl) as [_ Ht].
      split; [exact Hq|]. split; [exact Ha|].
      split; [rewrite Htr, <- !app_assoc; reflexivity | exact Ht].
  - intros e w1 w2 Ho Hb. unfold start, serving, call. rewrite Hs.
    cbn [world_of events]. rewrite Ho. cbn [world_of events]. rewrite Hb.
    cbn [world_of events].
    destruct (close E s w2) as [[u|e'] w3]; cbn [fst snd];
      rewrite <- !app_assoc; reflexivity.
Qed.
End ListenerRuns.


Module UuidFormat.
Import Text Json Plainness Eff Client.
Import UuidFacts ClientFacts.
Local Open Scope N_scope.

Lemma hex_digit_lower (d : N) : d < 16 -> is_lower_hex (hex_digit d) = true.
Proof.
  intros H. unfold is_lower_hex, hex_digit.
  destruct (N.ltb_spec d 10); apply orb_true_iff; [left | right];
    apply andb_true_iff; split; apply N.leb_le; lia.
Qed.

Lemma hex_chars_lower (w : nat) :
  forall x, forallb is_lower_hex (hex_chars w x) = true.
Proof.
  induction w as [|w IH]; intros x; [reflexivity|].
  cbn [hex_chars]. rewrite forallb_app, IH. cbn [forallb].
  rewrite hex_digit_lower; [reflexivity|].
  apply N.mod_lt. discriminate.
Qed.

(** The digit at place [i], counted from the left. *)
Lemma nth_hex_chars (w : nat) :
  forall (x : N) (i : nat),
    (i < w)%nat ->
    nth_error (hex_chars w x) i
    = Some (hex_digit ((x / 16 ^ N.of_nat (w - 1 - i)) mod 16)).
Proof.
  induction w as [|w IH]; intros x i Hi; [lia|].
  cbn [hex_chars].
  destruct (Nat.eq_dec i w) as [-> | Hne].
  - rewrite nth_error_app2 by (rewrite hex_chars_length; lia).
    rewrite hex_chars_length, Nat.sub_diag.
    replace (S w - 1 - w)%nat with 0%nat by lia.
    cbn [nth_error N.of_nat]. rewrite N.pow_0_r, N.div_1_r. reflexivity.
  - rewrite nth_error_app1 by (rewrite hex_chars_length; lia).
    rewrite IH by lia.
    replace (S w - 1 - i)%nat with (S (w - 1 - i)) by lia.
    rewrite Nat2N.inj_succ, N.pow_succ_r', N.Div0.div_div. reflexivity.
Qed.

(** The six bits [uuid.UUID(..., version=4)] fixes. *)
Lemma uuid4_int_bits (r : N) :
  N.testbit (uuid4_int r) 79 = false
  /\ N.testbit (uuid4_int r) 78 = true
  /\ N.testbit (uuid4_int r) 77 = false
  /\ N.testbit (uuid4_int r) 76 = false
  /\ N.testbit (uuid4_int r) 63 = true
  /\ N.testbit (uuid4_int r) 62 = false.
Proof.
  unfold uuid4_int. cbv zeta. generalize (r mod 2 ^ 128). intros y.
  rewrite !N.lor_spec, !N.ldiff_spec, !N.lor_spec, !N.ldiff_spec.
  change (N.testbit (N.shiftl 4 76) 79) with false.
  change (N.testbit (N.shiftl 4 76) 78) with true.
  change (N.testbit (N.shiftl 4 76) 77) with false.
  change (N.testbit (N.shiftl 4 76) 76) with false.
  change (N.testbit (N.shiftl 4 76) 63) with false.
  change (N.testbit (N.shiftl 4 76) 62) with false.
  change (N.testbit (N.shiftl 61440 64) 79) with true.
  change (N.testbit (N.shiftl 61440 64) 78) with true.
  change (N.testbit (N.shiftl 61440 64) 77) with true.
  change (N.testbit (N.shiftl 61440 64) 76) with true.
  change (N.testbit (N.shiftl 61440 64) 63) with false.
  change (N.testbit (N.shiftl 61440 64) 62) with false.
  change (N.testbit (N.shiftl 32768 48) 63) with true.
  change (N.testbit (N.shiftl 32768 48) 62) with false.
  change (N.testbit (N.shiftl 49152 48) 63) with true.
  change (N.testbit (N.shiftl 49152 48) 62) with true.
  repeat split;
    repeat match goal with
           | |- context [N.testbit y ?n] => destruct (N.testbit y n)
           | |- context [N.testbit ?a ?n] => destruct (N.testbit a n)
           end; reflexivity.
Qed.

Lemma bit_of_quotient (x n : N) (b : bool) :
  N.testbit x n = b -> (x / 2 ^ n) mod 2 = N.b2n b.
Proof. intros <-. symmetry. apply N.testbit_spec'. Qed.

(** The version digit is 4. *)
Lemma uuid4_int_version (r : N) : (uuid4_int r / 16 ^ 19) mod 16 = 4.
Proof.
  destruct (uuid4_int_bits r) as (H79 & H78 & H77 & H76 & _).
  apply bit_of_quotient in H79, H78, H77, H76. cbn [N.b2n] in *.
  change (16 ^ 19) with (2 ^ 76).
  change (2 ^ 77) with (2 ^ 76 * 2) in H77.
  change (2 ^ 78) with (2 ^ 76 * 4) in H78.
  change (2 ^ 79) with (2 ^ 76 * 8) in H79.
  rewrite <- N.Div0.div_div in H77, H78, H79.
  generalize dependent (uuid4_int r / 2 ^ 76). intros q H79 H78 H77 H76.
  zify. Z.to_euclidean_division_equations. lia.
Qed.

(** The variant digit is one of 8, 9, a, b. *)
Lemma uuid4_int_variant (r : N) :
  8 <= (uuid4_int r / 16 ^ 15) mod 16 < 12.
Proof.
  destruct (uuid4_int_bits r) as (_ & _ & _ & _ & H63 & H62).
  apply bit_of_quotient in H63, H62. cbn [N.b2n] in *.
  change (16 ^ 15) with (2 ^ 60).
  change (2 ^ 62) with (2 ^ 60 * 4) in H62.
  change (2 ^ 63) with (2 ^ 60 * 8) in H63.
  rewrite <- N.Div0.div_div in H62, H63.
  generalize dependent (uuid4_int r / 2 ^ 60). intros q H63 H62.
  zify. Z.to_euclidean_division_equations. lia.
Qed.

(** X18.  An identifier the client draws has the text of a version-4 UUID.
    [uuid4] reads sixteen random octets once and never raises; the text of
    what it returns is five groups of 8, 4, 4, 4 and 12 lower-case
    hexadecimal digits joined by dashes (36 characters), the third group
    beginning with the digit 4 and the fourth with one of 8, 9, a, b,
    whatever the random octets are. *)
Theorem uuid4_text_format :
  forall (seconds World : Type) (E : Client.env World)
         (st : state seconds World),
  exists (u : N) (st' : state seconds World) (a b c d e : str) (v : char),
    uuid4 E st = (Ok u, st')
    /\ trace st' = trace st ++ [EUrandom 16]
    /\ uuid_str u
       = a ++ [45] ++ b ++ [45] ++ (52 :: c) ++ [45] ++ (v :: d) ++ [45] ++ e
    /\ length a = 8%nat /\ length b = 4%nat /\ length c = 3%nat
    /\ length d = 3%nat /\ length e = 12%nat
    /\ forallb is_lower_hex (a ++ b ++ c ++ d ++ e) = true
    /\ (v = 56 \/ v = 57 \/ v = 97 \/ v = 98).
Proof.
  intros seconds World E st. rewrite uuid4_eq.
  set (u := uuid4_int (fst (os_urandom E 16 (world st)))).
  pose proof (hex_chars_lower 32 u) as Hlow.
  pose proof (nth_hex_chars 32 u 12 ltac:(lia)) as Hver.
  pose proof (nth_hex_chars 32 u 16 ltac:(lia)) as Hvar.
  change (N.of_nat (32 - 1 - 12)) with 19 in Hver.
  change (N.of_nat (32 - 1 - 16)) with 15 in Hvar.
  unfold u in Hver at 2. rewrite uuid4_int_version in Hver.
  pose proof (uuid4_int_variant (fst (os_urandom E 16 (world st)))) as Hrange.
  fold u in Hrange.
  assert (Hv : hex_digit ((u / 16 ^ 15) mod 16) = 56
               \/ hex_digit ((u / 16 ^ 15) mod 16) = 57
               \/ hex_digit ((u / 16 ^ 15) mod 16) = 97
               \/ hex_digit ((u / 16 ^ 15) mod 16) = 98).
  { unfold hex_digit.
    destruct (N.ltb_spec ((u / 16 ^ 15) mod 16) 10); lia. }
  destruct (list_32 (hex_chars 32 u) (hex_chars_length 32 u))
    as (a1 & a2 & a3 & a4 & a5 & a6 & a7 & a8 & b1 & b2 & b3 & b4 & c1 & c2
        & c3 & c4 & d1 & d2 & d3 & d4 & e1 & e2 & e3 & e4 & e5 & e6 & e7 & e8
        & e9 & e10 & e11 & e12 & Hhex).
  rewrite Hhex in Hlow, Hver, Hvar.
  cbn [nth_error] in Hver, Hvar.
  injection Hver as ->. injection Hvar as Hd1.
  exists u. eexists.
  exists [a1; a2; a3; a4; a5; a6; a7; a8], [b1; b2; b3; b4], [c2; c3; c4],
         [d2; d3; d4], [e1; e2; e3; e4; e5; e6; e7; e8; e9; e10; e11; e12], d1.
  split; [reflexivity|]. split; [reflexivity|].
  split; [unfold uuid_str; cbv zeta; rewrite Hhex; reflexivity|].
  do 5 (split; [reflexivity|]).
  split.
  - cbn [app forallb] in Hlow |- *.
    repeat (apply andb_true_iff in Hlow; destruct Hlow as [? Hlow]).
    repeat (apply andb_true_iff; split); try assumption; reflexivity.
  - rewrite Hd1. exact Hv.
Qed.
End UuidFormat.

Module ExecutorFacts.
Import Text Json Eff Server.
Import TextFacts ServerFacts.

(** X17.  The [error_code] of a result is decided by the text of the
    standard error alone: it is 3 when the words [not found], in lower
    case, occur anywhere in it, and 0 otherwise, whatever the exit status
    of the process and whatever else the process printed. *)
Theorem execute_cmd_flags_not_found :
  forall (seconds World : Type) (E : env seconds World) (self : Server.t seconds)
         (cmd : value) (st : state seconds World)
         (p : CompletedProcess) (w : World),
    subprocess_run E cmd (cmd_timeout self) (world st) = (Ok p, w) ->
    exists r code,
      fst (execute_cmd E self cmd st) = Ok r
      /\ getitem r (lit "error_code") = Ok (VInt code)
      /\ (code = 3%Z \/ code = 0%Z)
      /\ (code = 3%Z <->
          exists before after,
            stderr p = before ++ lit "not found" ++ after).
Proof.
  intros seconds World E self cmd st p w H.
  rewrite execute_cmd_eq, H. cbn [fst].
  eexists. exists (if contains not_found (stderr p) then 3%Z else 0%Z).
  split; [reflexivity|]. split; [reflexivity|].
  pose proof (contains_spec not_found (stderr p)) as Hc.
  unfold not_found in *.
  destruct (contains (lit "not found") (stderr p)).
  - split; [left; reflexivity|]. split; [intros _; apply Hc; reflexivity|].
    reflexivity.
  - split; [right; reflexivity|]. split; [discriminate|].
    intros Hex. apply Hc in Hex. discriminate Hex.
Qed.

Lemma execute_cmd_flags_not_found_witness :
  exists r code,
    fst (execute_cmd (Script.server_env (Ok [])) Script.server
           (VStr (lit "frobnicate"))
           (Script.start [Script.exited 127%Z EmptyString
                            "sh: 1: frobnicate: not found"])) = Ok r
    /\ getitem r (lit "error_code") = Ok (VInt code)
    /\ (code = 3%Z \/ code = 0%Z)
    /\ (code = 3%Z <->
        exists before after,
          lit "sh: 1: frobnicate: not found"
          = before ++ lit "not found" ++ after).
Proof.
  exact (execute_cmd_flags_not_found N _ (Script.server_env (Ok []))
           Script.server (VStr (lit "frobnicate"))
           (Script.start [Script.exited 127%Z EmptyString
                            "sh: 1: frobnicate: not found"])
           (Completed 127 (lit EmptyString) (lit "sh: 1: frobnicate: not found"))
           [] eq_refl).
Defined.
End ExecutorFacts.
